(** * SCP forwarder of ssh-mitm: a shallow embedding and its properties

    Source: [src/ssh_proxy_server/forwarders/scp.py]
    (classes [SCPBaseForwarder] and [SCPForwarder]).

    Conventions of the embedding.
    - Python [bytes] are lists of [Byte.byte]; Python [str] are lists of
      Unicode code points ([N]); Python [int] is [Z].
    - A method that mutates [self] is a function from the object's fields to
      a result and the new fields; a raised exception is a result of its own.
    - Calls of [logging] have no effect on the forwarder or on the channels
      and are left out.
    - [int(...)] is the conversion of the interpreter with its default limit
      on the number of digits of the string: a longer string raises
      [ValueError]. *)

From Stdlib Require Import Strings.Byte Strings.String.
From Stdlib Require Import ZArith NArith Bool Lia List.
Import ListNotations.

Local Open Scope list_scope.
Local Open Scope Z_scope.

(** ** Python values *)

Definition bytes := list byte.
Definition str := list N.

(** The bytes literals of the examples: the bytes of an ASCII string. *)
Definition b (s : string) : bytes := list_byte_of_string s.
(** The same literal followed by a newline byte. *)
Definition bline (s : string) : bytes := b s ++ [x0a].
(** A [str] literal with ASCII characters only. *)
Definition u (s : string) : str := map Byte.to_N (list_byte_of_string s).

Inductive exn : Type :=
| UnicodeDecodeError
| ValueError (msg : string).

Inductive result (A : Type) : Type :=
| Return (a : A)
| Raise (e : exn).
Arguments Return {A} a.
Arguments Raise {A} e.

(** [data.startswith(prefix)], on bytes and on str. *)
Fixpoint prefixb {A : Type} (eqb : A -> A -> bool) (data prefix : list A) : bool :=
  match prefix, data with
  | [], _ => true
  | p :: prefix', d :: data' => eqb p d && prefixb eqb data' prefix'
  | _ :: _, [] => false
  end.

Definition startswith (data prefix : bytes) : bool :=
  prefixb Byte.eqb data prefix.

Definition str_startswith (data prefix : str) : bool :=
  prefixb N.eqb data prefix.

(** [data.find(sub)]: the lowest index at which [sub] occurs, or -1. *)
Fixpoint find_from (i : Z) (data sub : bytes) : Z :=
  if startswith data sub then i
  else match data with
       | [] => -1
       | _ :: data' => find_from (i + 1) data' sub
       end.

Definition find (data sub : bytes) : Z := find_from 0 data sub.

(** [data[start:]] for any integer [start]: a negative one counts from the
    end. *)
Definition slice_from {A : Type} (data : list A) (start : Z) : list A :=
  if start <? 0 then skipn (Z.to_nat (Z.of_nat (length data) + start)) data
  else skipn (Z.to_nat start) data.

(** ** [bytes.decode('utf-8')]

    The strict decoder: shortest forms only, no surrogates, nothing above
    U+10FFFF. [None] stands for [UnicodeDecodeError]. *)

Definition in_range (lo hi : N) (x : byte) : bool :=
  (N.leb lo (Byte.to_N x) && N.leb (Byte.to_N x) hi)%N.

Definition is_cont (x : byte) : bool := in_range 128 191 x.

Definition payload (x : byte) : N := (Byte.to_N x mod 64)%N.

(** Lead byte and second byte of a three-byte form. *)
Definition lead3 (b0 b1 : byte) : bool :=
  (in_range 224 224 b0 && in_range 160 191 b1)
  || ((in_range 225 236 b0 || in_range 238 239 b0) && is_cont b1)
  || (in_range 237 237 b0 && in_range 128 159 b1).

(** Lead byte and second byte of a four-byte form. *)
Definition lead4 (b0 b1 : byte) : bool :=
  (in_range 240 240 b0 && in_range 144 191 b1)
  || (in_range 241 243 b0 && is_cont b1)
  || (in_range 244 244 b0 && in_range 128 143 b1).

Fixpoint utf8_decode (data : bytes) : option str :=
  match data with
  | [] => Some []
  | b0 :: r0 =>
    if in_range 0 127 b0 then option_map (cons (Byte.to_N b0)) (utf8_decode r0)
    else
      match r0 with
      | [] => None
      | b1 :: r1 =>
        if in_range 194 223 b0 && is_cont b1 then
          option_map (cons ((Byte.to_N b0 mod 32) * 64 + payload b1)%N)
                     (utf8_decode r1)
        else
          match r1 with
          | [] => None
          | b2 :: r2 =>
            if lead3 b0 b1 && is_cont b2 then
              option_map
                (cons ((Byte.to_N b0 mod 16) * 4096 + payload b1 * 64
                       + payload b2)%N)
                (utf8_decode r2)
            else
              match r2 with
              | [] => None
              | b3 :: r3 =>
                if lead4 b0 b1 && is_cont b2 && is_cont b3 then
                  option_map
                    (cons ((Byte.to_N b0 mod 8) * 262144 + payload b1 * 4096
                           + payload b2 * 64 + payload b3)%N)
                    (utf8_decode r3)
                else None
              end
          end
      end
  end.

(** ** The regular expression of [handle_command]

    [re.match] with the pattern made of, in this order: group 1, one of the
    letters C and D; group 2, four characters of the class 0-7; one
    white-space character; group 3, one or more characters of the class 0-9,
    greedy; one white-space character; group 4, any number of characters
    other than the newline, greedy; a newline. The match is anchored at the
    start of [command], not at its end. *)

Definition chr_newline : N := 10%N.

(** [[CD]] *)
Definition is_CD (c : N) : bool := (N.eqb c 67 || N.eqb c 68)%N.
(** [[0-7]] *)
Definition is_octal (c : N) : bool := (N.leb 48 c && N.leb c 55)%N.
(** [[0-9]] *)
Definition is_digit (c : N) : bool := (N.leb 48 c && N.leb c 57)%N.
(** [.] without DOTALL: any character but the newline *)
Definition is_dot (c : N) : bool := negb (N.eqb c chr_newline).
(** [\s] of a [str] pattern: the characters for which [str.isspace] holds *)
Definition is_space (c : N) : bool :=
  ((N.leb 9 c && N.leb c 13) || (N.leb 28 c && N.leb c 32)
   || N.eqb c 133 || N.eqb c 160 || N.eqb c 5760
   || (N.leb 8192 c && N.leb c 8202)
   || N.eqb c 8232 || N.eqb c 8233 || N.eqb c 8239 || N.eqb c 8287
   || N.eqb c 12288)%N.

(** The longest prefix whose characters satisfy [p], and what follows it:
    a greedy [p*]. *)
Fixpoint span (p : N -> bool) (s : str) : str * str :=
  match s with
  | [] => ([], [])
  | c :: s' =>
    if p c then let (pre, post) := span p s' in (c :: pre, post)
    else ([], s)
  end.

(** The groups 1 to 4 of the match, or [None] when there is none. The
    character classes that follow one another in the pattern are disjoint
    (digits and white space, non-newlines and the newline), so the greedy
    choice is the only one and backtracking finds nothing else:
    [re_match_c_command_complete] and [re_match_c_command_sound] below. *)
Definition re_match_c_command (command : str) : option (str * str * str * str) :=
  match command with
  | c :: m1 :: m2 :: m3 :: m4 :: w1 :: r =>
    if is_CD c && forallb is_octal [m1; m2; m3; m4] && is_space w1 then
      match span is_digit r with
      | (d :: size, w2 :: r') =>
        if is_space w2 then
          match span is_dot r' with
          | (name, _ :: _) => Some ([c], [m1; m2; m3; m4], d :: size, name)
          | (_, []) => None
          end
        else None
      | _ => None
      end
    else None
  | _ => None
  end.

(** The pattern read as a grammar: the ways to split [command] into the
    four groups, the two white-space characters, the newline and a rest. *)
Definition c_command_line (command g1 g2 g3 g4 : str) : Prop :=
  exists c w1 w2 rest,
    command = g1 ++ g2 ++ w1 :: g3 ++ w2 :: g4 ++ chr_newline :: rest
    /\ g1 = [c] /\ is_CD c = true
    /\ length g2 = 4%nat /\ forallb is_octal g2 = true
    /\ is_space w1 = true
    /\ g3 <> [] /\ forallb is_digit g3 = true
    /\ is_space w2 = true
    /\ forallb is_dot g4 = true.

(** The value of a string of ASCII digits. *)
Definition digit_value (c : N) : Z := Z.of_N c - 48.
Definition int_of_digits (s : str) : Z :=
  fold_left (fun acc c => acc * 10 + digit_value c) s 0.

(** [sys.int_info.default_max_str_digits] *)
Definition max_str_digits : Z := 4300.

(** [int(s)] for a string [s] of ASCII digits: a string of more than
    [max_str_digits] digits, leading zeros counted, is refused with a
    [ValueError]. The message of the interpreter goes on with the number
    of digits of [s]; that part is left out. *)
Definition too_many_digits : exn :=
  ValueError "Exceeds the limit (4300 digits) for integer string conversion".

Definition int_of_str (s : str) : result Z :=
  if max_str_digits <? Z.of_nat (length s) then Raise too_many_digits
  else Return (int_of_digits s).

(** ** [SCPForwarder]: the fields set by [__init__] *)

Record SCPForwarder : Type := mkSCPForwarder {
  await_response : bool;
  bytes_remaining : Z;
  bytes_to_write : Z;
  file_command : option str;
  file_mode : option str;
  file_size : Z;
  file_name : str;
  got_c_command : bool
}.

(** [SCPForwarder.__init__] *)
Definition init : SCPForwarder :=
  {| await_response := false;
     bytes_remaining := 0;
     bytes_to_write := 0;
     file_command := None;
     file_mode := None;
     file_size := 0;
     file_name := [];
     got_c_command := false |}.

Definition set_await_response (v : bool) (self : SCPForwarder) :=
  {| await_response := v;
     bytes_remaining := bytes_remaining self;
     bytes_to_write := bytes_to_write self;
     file_command := file_command self;
     file_mode := file_mode self;
     file_size := file_size self;
     file_name := file_name self;
     got_c_command := got_c_command self |}.

Definition set_got_c_command (v : bool) (self : SCPForwarder) :=
  {| await_response := await_response self;
     bytes_remaining := bytes_remaining self;
     bytes_to_write := bytes_to_write self;
     file_command := file_command self;
     file_mode := file_mode self;
     file_size := file_size self;
     file_name := file_name self;
     got_c_command := v |}.

(** The assignments of lines 185 and 186 of [handle_command]. *)
Definition set_command_mode (cmd mode : str) (self : SCPForwarder) :=
  {| await_response := await_response self;
     bytes_remaining := bytes_remaining self;
     bytes_to_write := bytes_to_write self;
     file_command := Some cmd;
     file_mode := Some mode;
     file_size := file_size self;
     file_name := file_name self;
     got_c_command := got_c_command self |}.

(** The assignments of lines 187 and 188 of [handle_command]. *)
Definition set_size_name (size : Z) (name : str) (self : SCPForwarder) :=
  {| await_response := await_response self;
     bytes_remaining := size;
     bytes_to_write := bytes_to_write self;
     file_command := file_command self;
     file_mode := file_mode self;
     file_size := size;
     file_name := name;
     got_c_command := got_c_command self |}.

(** A method of the forwarder: the result and the fields afterwards. *)
Definition method (A : Type) : Type := SCPForwarder -> result A * SCPForwarder.

(** [SCPForwarder.handle_command]. The [E] and [T] patterns are matched
    only to log the line; both branches return [traffic]. On a control
    line, [int] is called once [got_c_command], [file_command] and
    [file_mode] are assigned, and before the size is. *)
Definition handle_command (traffic : bytes) : method bytes :=
  fun self =>
    let self := set_got_c_command false self in
    match utf8_decode traffic with
    | None => (Raise UnicodeDecodeError, self)
    | Some command =>
      match re_match_c_command command with
      | None => (Return traffic, self)
      | Some (g1, g2, g3, g4) =>
        let self := set_got_c_command true self in
        let self := set_command_mode g1 g2 self in
        match int_of_str g3 with
        | Raise e => (Raise e, self)
        | Return size =>
          let self := set_size_name size g4 self in
          let self := set_await_response true self in
          (Return traffic, self)
        end
      end
    end.

(** [SCPForwarder.process_data] *)
Definition process_data (traffic : bytes) : method bytes :=
  fun self => (Return traffic, self).

(** [SCPForwarder.process_response] *)
Definition process_response (traffic : bytes) : method bytes :=
  fun self => (Return traffic, self).

(** [SCPForwarder.handle_traffic]; [scp_command] is
    [self.session.scp_command]. *)
Definition handle_traffic (scp_command : bytes) (traffic : bytes)
    (isclient : bool) : method bytes :=
  fun self =>
    if negb (startswith scp_command (b "scp")) then (Return traffic, self)
    else if await_response self then
      process_response traffic (set_await_response false self)
    else if (bytes_remaining self =? 0) && negb (got_c_command self) then
      handle_command traffic self
    else
      process_data traffic (set_got_c_command false self).


(** ** The state machine read off the three flags *)

(** The states that a forwarder for [scp_command] reaches from its initial
    state through calls of [handle_traffic], whatever they return. *)
Inductive reachable (scp_command : bytes) : SCPForwarder -> Prop :=
| reachable_init : reachable scp_command init
| reachable_step : forall self traffic isclient,
    reachable scp_command self ->
    reachable scp_command
              (snd (handle_traffic scp_command traffic isclient self)).

(** The three conditions, as the flags give them. *)
Definition awaiting_response (self : SCPForwarder) : bool :=
  await_response self.

Definition streaming_payload (self : SCPForwarder) : bool :=
  negb (bytes_remaining self =? 0) || got_c_command self.

Definition awaiting_control_line (self : SCPForwarder) : bool :=
  negb (await_response self)
  && ((bytes_remaining self =? 0) && negb (got_c_command self)).

Definition at_most_one (x y z : bool) : bool :=
  negb (x && y) && negb (x && z) && negb (y && z).

(** A sequence of chunks, each with its [isclient], handed to
    [handle_traffic] one after the other: the results and the last state. *)
Fixpoint feed (scp_command : bytes) (chunks : list (bytes * bool))
    (self : SCPForwarder) : list (result bytes) * SCPForwarder :=
  match chunks with
  | [] => ([], self)
  | (traffic, isclient) :: chunks' =>
    let (r, self') := handle_traffic scp_command traffic isclient self in
    let (rs, self'') := feed scp_command chunks' self' in
    (r :: rs, self'')
  end.

(** ** paramiko: what [SCPBaseForwarder] uses of its channels

    A [Message] is kept as the list of the fields added to it, in the
    order of the [add_*] calls. *)

Inductive field : Type :=
| add_byte (c : N)
| add_int (n : N)
| add_string (s : string)
| add_boolean (v : bool).

Definition Message := list field.

(** [paramiko.common]: the message numbers of the connection protocol. *)
Definition cMSG_CHANNEL_EOF : N := 96%N.
Definition cMSG_CHANNEL_CLOSE : N := 97%N.
Definition cMSG_CHANNEL_REQUEST : N := 98%N.

(** The calls the forwarder makes that act on a channel or on its
    transport, recorded in the order in which they are made. *)
Inductive event (chan : Type) : Type :=
| EvGetPty (c : chan)
| EvExecCommand (c : chan) (command : str)
| EvRecv (c : chan) (stderr : bool) (data : bytes)
| EvSend (c : chan) (stderr : bool) (data : bytes) (n : Z)
| EvRecvExitStatus (c : chan) (status : Z)
| EvSendExitStatus (c : chan) (status : Z)
| EvSendUserMessage (c : chan) (m : Message)
| EvUnlink (c : chan)
| EvBaseCloseSession (c : chan)
| EvClose (c : chan)
| EvSleep.
Arguments EvGetPty {chan} c.
Arguments EvExecCommand {chan} c command.
Arguments EvRecv {chan} c stderr data.
Arguments EvSend {chan} c stderr data n.
Arguments EvRecvExitStatus {chan} c status.
Arguments EvSendExitStatus {chan} c status.
Arguments EvSendUserMessage {chan} c m.
Arguments EvUnlink {chan} c.
Arguments EvBaseCloseSession {chan} c.
Arguments EvClose {chan} c.
Arguments EvSleep {chan}.

(** The calls of a send primitive as they appear among the recorded
    calls. *)
Definition send_events {chan : Type} (c : chan) (stderr : bool)
    (calls : list (bytes * Z)) : list (event chan) :=
  map (fun call => EvSend c stderr (fst call) (snd call)) calls.

(** The calls of a send primitive that write a buffer whole: each call is
    handed what is still unsent and reports how many bytes of it, at least
    one, it has written. *)
Inductive successive : bytes -> list (bytes * Z) -> Prop :=
| successive_done : successive [] []
| successive_call : forall rest n calls,
    0 < n <= Z.of_nat (length rest) ->
    successive (skipn (Z.to_nat n) rest) calls ->
    successive rest ((rest, n) :: calls).

(** The environment [W] of a forwarder (its two channels, their transports,
    the session's [running] flag and whatever else changes them) and the
    operations on it. An attribute read is a function of the environment;
    a method call also returns the environment it leaves. The two
    operations of [BaseForwarder], which [SCPBaseForwarder] inherits and
    calls, are taken in the same way. *)
Record Paramiko (W chan : Type) : Type := mkParamiko {
  (* attributes of a channel *)
  closed : chan -> W -> bool;
  eof_received : chan -> W -> bool;
  remote_chanid : chan -> N;
  (* session.running *)
  running : W -> bool;
  (* methods of a channel *)
  get_pty : chan -> W -> W;
  exec_command : chan -> str -> W -> W;
  recv_ready : chan -> W -> bool * W;
  recv : chan -> N -> W -> bytes * W;
  send : chan -> bytes -> W -> Z * W;
  recv_stderr_ready : chan -> W -> bool * W;
  recv_stderr : chan -> N -> W -> bytes * W;
  send_stderr : chan -> bytes -> W -> Z * W;
  exit_status_ready : chan -> W -> bool * W;
  recv_exit_status : chan -> W -> Z * W;
  send_exit_status : chan -> Z -> W -> W;
  close : chan -> W -> W;
  (* channel.transport._send_user_message and channel._unlink *)
  send_user_message : chan -> Message -> W -> W;
  unlink : chan -> W -> W;
  (* BaseForwarder._closed and BaseForwarder.close_session *)
  base_closed : chan -> W -> bool * W;
  base_close_session : chan -> W -> W;
  (* time.sleep *)
  sleep : W -> W
}.
Arguments closed {W chan} _ _ _.
Arguments eof_received {W chan} _ _ _.
Arguments remote_chanid {W chan} _ _.
Arguments running {W chan} _ _.
Arguments get_pty {W chan} _ _ _.
Arguments exec_command {W chan} _ _ _ _.
Arguments recv_ready {W chan} _ _ _.
Arguments recv {W chan} _ _ _ _.
Arguments send {W chan} _ _ _ _.
Arguments recv_stderr_ready {W chan} _ _ _.
Arguments recv_stderr {W chan} _ _ _ _.
Arguments send_stderr {W chan} _ _ _ _.
Arguments exit_status_ready {W chan} _ _ _.
Arguments recv_exit_status {W chan} _ _ _.
Arguments send_exit_status {W chan} _ _ _ _.
Arguments close {W chan} _ _ _.
Arguments send_user_message {W chan} _ _ _ _.
Arguments unlink {W chan} _ _ _.
Arguments base_closed {W chan} _ _ _.
Arguments base_close_session {W chan} _ _ _.
Arguments sleep {W chan} _ _.

(** The fields of the session that [forward] reads. *)
Record Session (chan : Type) : Type := mkSession {
  ssh_pty_kwargs : option unit;
  scp_command : bytes;
  scp_channel : option chan;
  agent : option unit
}.
Arguments ssh_pty_kwargs {chan} _.
Arguments scp_command {chan} _.
Arguments scp_channel {chan} _.
Arguments agent {chan} _.

(** The two methods a subclass overrides, over the fields [H] it adds. *)
Record Hooks (H : Type) : Type := mkHooks {
  hook_handle_traffic : bytes -> bool -> H -> result bytes * H;
  hook_handle_error : bytes -> H -> result bytes * H
}.
Arguments hook_handle_traffic {H} _ _ _ _.
Arguments hook_handle_error {H} _ _ _.

(** [SCPBaseForwarder.handle_traffic] and [SCPBaseForwarder.handle_error] *)
Definition base_handle_traffic {H : Type} (traffic : bytes) (isclient : bool)
    (self : H) : result bytes * H := (Return traffic, self).

Definition base_handle_error {H : Type} (traffic : bytes) (self : H)
    : result bytes * H := (Return traffic, self).

Definition SCPBaseForwarder_hooks : Hooks unit :=
  {| hook_handle_traffic := base_handle_traffic;
     hook_handle_error := base_handle_error |}.

(** [SCPForwarder] overrides [handle_traffic] and inherits [handle_error]. *)
Definition SCPForwarder_hooks (command : bytes) : Hooks SCPForwarder :=
  {| hook_handle_traffic := handle_traffic command;
     hook_handle_error := base_handle_error |}.

(** ** [SCPBaseForwarder]: the relay

    The state a run of the relay acts on: the environment, the fields [H]
    of the subclass, and the calls made so far. *)

Record World (W chan H : Type) : Type := mkWorld {
  env : W;
  self : H;
  trace : list (event chan)
}.
Arguments mkWorld {W chan H} env self trace.
Arguments env {W chan H} _.
Arguments self {W chan H} _.
Arguments trace {W chan H} _.

(** A piece of the relay: the world it leaves and the value it returns or
    the exception it raises; [None] when a loop has not finished within the
    iterations it was given. *)
Definition run (W chan H A : Type) : Type :=
  World W chan H -> option (result A * World W chan H).

Definition ret {W chan H A} (a : A) : run W chan H A :=
  fun w => Some (Return a, w).

Definition raise {W chan H A} (e : exn) : run W chan H A :=
  fun w => Some (Raise e, w).

Definition out_of_fuel {W chan H A} : run W chan H A :=
  fun _ => None.

Definition bind {W chan H A B} (m : run W chan H A) (k : A -> run W chan H B)
    : run W chan H B :=
  fun w =>
    match m w with
    | Some (Return a, w') => k a w'
    | Some (Raise e, w') => Some (Raise e, w')
    | None => None
    end.

Declare Scope run_scope.
Delimit Scope run_scope with run.
Notation "x <- m ;; k" := (bind m (fun x => k))
  (at level 61, m at next level, right associativity) : run_scope.
Notation "m ;; k" := (bind m (fun _ => k))
  (at level 61, right associativity) : run_scope.
Local Open Scope run_scope.

(** [if c: m] *)
Definition when {W chan H} (c : bool) (m : run W chan H unit)
    : run W chan H unit :=
  if c then m else ret tt.

Section Relay.
Context {W chan H : Type}.
Variable api : Paramiko W chan.
Variable hooks : Hooks H.
Variable session : Session chan.
Variable server_channel : chan.
Variable BUF_LEN : N.

Local Abbreviation M := (run W chan H).

(** Reading an attribute. *)
Definition attr {A} (f : W -> A) : M A :=
  fun w => Some (Return (f (env w)), w).

(** A call that only asks. *)
Definition query {A} (f : W -> A * W) : M A :=
  fun w =>
    let (a, e) := f (env w) in
    Some (Return a, mkWorld e (self w) (trace w)).

(** A call that acts and returns a value: it is recorded. *)
Definition call {A} (f : W -> A * W) (ev : A -> event chan) : M A :=
  fun w =>
    let (a, e) := f (env w) in
    Some (Return a, mkWorld e (self w) (trace w ++ [ev a])).

(** A call that acts and returns nothing. *)
Definition act (f : W -> W) (ev : event chan) : M unit :=
  fun w => Some (Return tt, mkWorld (f (env w)) (self w) (trace w ++ [ev])).

(** A call of a method of the subclass. *)
Definition hook {A} (f : H -> result A * H) : M A :=
  fun w =>
    let (r, h) := f (self w) in
    Some (r, mkWorld (env w) h (trace w)).

(** A send primitive of channel [c], as [sendall] is handed one: a call
    of it takes the data and returns a number of bytes. *)
Definition primitive (c : chan) (stderr : bool)
    (prim : bytes -> W -> Z * W) (data : bytes) : M Z :=
  call (prim data) (EvSend c stderr data).

(** [channel.send] and [channel.send_stderr] *)
Definition chan_send (c : chan) : bytes -> M Z :=
  primitive c false (send api c).

Definition chan_send_stderr (c : chan) : bytes -> M Z :=
  primitive c true (send_stderr api c).

(** The [while sent != len(data)] loop of [sendall]. *)
Fixpoint sendall_loop (fuel : nat) (data : bytes) (sendfunc : bytes -> M Z)
    (sent : Z) : M Z :=
  match fuel with
  | O => out_of_fuel
  | S fuel' =>
    if sent =? Z.of_nat (length data) then ret sent
    else
      newsent <- sendfunc (slice_from data sent);;
      if newsent =? 0 then ret 0
      else sendall_loop fuel' data sendfunc (sent + newsent)
  end.

(** [SCPBaseForwarder.sendall] *)
Definition sendall (fuel : nat) (channel : chan) (data : bytes)
    (sendfunc : bytes -> M Z) : M Z :=
  match data with
  | [] => ret 0
  | _ :: _ =>
    ready <- query (exit_status_ready api channel);;
    if ready then ret 0
    else sendall_loop fuel data sendfunc 0
  end.

(** [channel.transport._send_user_message(message)] *)
Definition send_message (channel : chan) (message : Message) : M unit :=
  act (send_user_message api channel message)
      (EvSendUserMessage channel message).

(** [SCPBaseForwarder.close_session] *)
Definition close_session (channel : chan) : M unit :=
  is_closed <- attr (closed api channel);;
  if is_closed then ret tt
  else
    eof <- attr (eof_received api channel);;
    when (negb eof)
      (send_message channel
         [add_byte cMSG_CHANNEL_EOF; add_int (remote_chanid api channel)];;
       send_message channel
         [add_byte cMSG_CHANNEL_REQUEST; add_int (remote_chanid api channel);
          add_string "eow@openssh.com"; add_boolean false]);;
    send_message channel
      [add_byte cMSG_CHANNEL_CLOSE; add_int (remote_chanid api channel)];;
    act (unlink api channel) (EvUnlink channel);;
    act (base_close_session api channel) (EvBaseCloseSession channel).

(** One of the four relay steps of the loop: when [ready], read from
    [src], pass the data to the hook and send the result to [dst]. *)
Definition relay (fuel : nat) (src dst : chan) (stderr : bool)
    (handle : bytes -> H -> result bytes * H) : M unit :=
  ready <- query ((if stderr then recv_stderr_ready else recv_ready) api src);;
  when ready
    (buf <- call ((if stderr then recv_stderr else recv) api src BUF_LEN)
                 (EvRecv src stderr);;
     buf <- hook (handle buf);;
     _ <- sendall fuel dst buf
            (if stderr then chan_send_stderr dst else chan_send dst);;
     ret tt).

(** The four relay steps of one iteration (lines 55 to 70). *)
Definition relay_all (fuel : nat) (client : chan) : M unit :=
  relay fuel client server_channel false
        (fun buf => hook_handle_traffic hooks buf true);;
  relay fuel server_channel client false
        (fun buf => hook_handle_traffic hooks buf false);;
  relay fuel client server_channel true (hook_handle_error hooks);;
  relay fuel server_channel client true (hook_handle_error hooks).

(** The [while self.session.running] loop of [forward]. The [except]
    clause logs and raises the exception again. *)
Fixpoint forward_loop (fuel : nat) : M unit :=
  match fuel with
  | O => out_of_fuel
  | S fuel' =>
    go <- attr (running api);;
    if negb go then ret tt
    else
      match scp_channel session with
      | None => raise (ValueError "No SCP Channel available!")
      | Some client =>
        relay_all fuel' client;;
        server_done <- query (exit_status_ready api server_channel);;
        if server_done then
          status <- call (recv_exit_status api server_channel)
                         (EvRecvExitStatus server_channel);;
          act (send_exit_status api client status)
              (EvSendExitStatus client status);;
          close_session client
        else
          client_done <- query (exit_status_ready api client);;
          if client_done then
            _ <- call (recv_exit_status api client) (EvRecvExitStatus client);;
            close_session client
          else
            client_closed <- query (base_closed api client);;
            if client_closed then
              act (close api server_channel) (EvClose server_channel);;
              close_session client
            else
              server_closed <- query (base_closed api server_channel);;
              if server_closed then close_session client
              else
                act (sleep api) EvSleep;;
                forward_loop fuel'
      end
  end.

(** The wait of a remote to remote copy:
    [while not self._closed(self.server_channel): time.sleep(1)]. *)
Fixpoint wait_closed (fuel : nat) : M unit :=
  match fuel with
  | O => out_of_fuel
  | S fuel' =>
    server_closed <- query (base_closed api server_channel);;
    if server_closed then ret tt
    else act (sleep api) EvSleep;; wait_closed fuel'
  end.

(** [bytes.decode('utf8')] as a step of the relay. *)
Definition decode (data : bytes) : M str :=
  match utf8_decode data with
  | Some s => ret s
  | None => raise UnicodeDecodeError
  end.

(** [SCPBaseForwarder.forward] *)
Definition forward (fuel : nat) : M unit :=
  when (match ssh_pty_kwargs session with Some _ => true | None => false end)
    (act (get_pty api server_channel) (EvGetPty server_channel));;
  command <- decode (scp_command session);;
  act (exec_command api server_channel command)
      (EvExecCommand server_channel command);;
  command <- decode (scp_command session);;
  when (str_startswith command (u "scp"))
    (when (negb (negb (find (scp_command session) (b " -t ") =? -1))
           && negb (negb (find (scp_command session) (b " -f ") =? -1)))
       (wait_closed fuel));;
  forward_loop fuel.

End Relay.

(** ** A simulated pair of channels

    An environment on which the relay can be run: the client-side and the
    server-side channel, each with the data waiting to be read, the exit
    status once it has arrived, and the number of bytes one call of a send
    primitive takes. The transport's table of channels is the list
    [sim_channels]. *)

Inductive side : Type := Client | Server.

Definition side_eqb (x y : side) : bool :=
  match x, y with
  | Client, Client | Server, Server => true
  | _, _ => false
  end.

Record SimChannel : Type := mkSimChannel {
  sim_closed : bool;
  sim_eof_received : bool;
  sim_exit_status : option Z;
  sim_in : bytes;
  sim_in_stderr : bytes;
  sim_window : nat
}.

Record Sim : Type := mkSim {
  sim_client : SimChannel;
  sim_server : SimChannel;
  sim_running : bool;
  sim_channels : list side
}.

Definition sim_chan (c : side) (w : Sim) : SimChannel :=
  match c with Client => sim_client w | Server => sim_server w end.

Definition sim_update (c : side) (f : SimChannel -> SimChannel) (w : Sim) : Sim :=
  match c with
  | Client => mkSim (f (sim_client w)) (sim_server w) (sim_running w)
                    (sim_channels w)
  | Server => mkSim (sim_client w) (f (sim_server w)) (sim_running w)
                    (sim_channels w)
  end.

Definition sim_set_closed (ch : SimChannel) : SimChannel :=
  mkSimChannel true (sim_eof_received ch)
               (sim_exit_status ch) (sim_in ch) (sim_in_stderr ch)
               (sim_window ch).

Definition sim_take (stderr : bool) (n : N) (ch : SimChannel) : SimChannel :=
  mkSimChannel (sim_closed ch) (sim_eof_received ch)
               (sim_exit_status ch)
               (if stderr then sim_in ch else skipn (N.to_nat n) (sim_in ch))
               (if stderr then skipn (N.to_nat n) (sim_in_stderr ch)
                else sim_in_stderr ch)
               (sim_window ch).

Definition sim_unlink (c : side) (w : Sim) : Sim :=
  if sim_closed (sim_chan c w) then w
  else
    let w' := sim_update c sim_set_closed w in
    mkSim (sim_client w') (sim_server w') (sim_running w')
          (filter (fun x => negb (side_eqb x c)) (sim_channels w')).

Definition sim_send (c : side) (data : bytes) (w : Sim) : Z * Sim :=
  (Z.of_nat (Nat.min (sim_window (sim_chan c w)) (length data)), w).

Definition sim_api : Paramiko Sim side :=
  {| closed := fun c w => sim_closed (sim_chan c w);
     eof_received := fun c w => sim_eof_received (sim_chan c w);
     remote_chanid := fun c => match c with Client => 7%N | Server => 3%N end;
     running := sim_running;
     get_pty := fun _ w => w;
     exec_command := fun _ _ w => w;
     recv_ready := fun c w =>
       (match sim_in (sim_chan c w) with [] => false | _ => true end, w);
     recv := fun c n w =>
       (firstn (N.to_nat n) (sim_in (sim_chan c w)),
        sim_update c (sim_take false n) w);
     send := sim_send;
     recv_stderr_ready := fun c w =>
       (match sim_in_stderr (sim_chan c w) with [] => false | _ => true end, w);
     recv_stderr := fun c n w =>
       (firstn (N.to_nat n) (sim_in_stderr (sim_chan c w)),
        sim_update c (sim_take true n) w);
     send_stderr := sim_send;
     exit_status_ready := fun c w =>
       (match sim_exit_status (sim_chan c w) with Some _ => true | None => false end,
        w);
     recv_exit_status := fun c w =>
       (match sim_exit_status (sim_chan c w) with Some st => st | None => -1 end,
        w);
     send_exit_status := fun _ _ w => w;
     close := fun c w => sim_update c sim_set_closed w;
     send_user_message := fun _ _ w => w;
     unlink := sim_unlink;
     base_closed := fun c w => (sim_closed (sim_chan c w), w);
     base_close_session := fun c w =>
       if sim_closed (sim_chan c w) then w else sim_update c sim_set_closed w;
     sleep := fun w => w |}.

(** An open channel with nothing to read, and a session over two of them. *)
Definition sim_idle (window : nat) : SimChannel :=
  mkSimChannel false false None [] [] window.

Definition sim_start (window : nat) : Sim :=
  mkSim (sim_idle window) (sim_idle window) true [Client; Server].

Definition sim_session (command : bytes) : Session side :=
  {| ssh_pty_kwargs := None;
     scp_command := command;
     scp_channel := Some Client;
     agent := None |}.

(** A send primitive that writes at most two bytes a call, whatever the
    environment. *)
Definition at_most_two (data : bytes) (w : Sim) : Z * Sim :=
  (Z.of_nat (Nat.min 2 (length data)), w).


(** A control line whose size is written with 4301 digits: 4300 zeros
    and a 7. *)
Definition long_size : str := repeat 48%N 4300 ++ [55%N].

Definition long_size_line : bytes :=
  b "C0644 " ++ repeat x30 4300 ++ b "7 x" ++ [x0a].

(** ** Notions used to state the further properties *)

(** The fields as [__init__] and [handle_command] leave them: the size is
    not negative and is in both size fields, [bytes_to_write] is never
    assigned, and the fields of the file are either those of [__init__] or
    the groups of one control line. *)
Definition fields_wf (self : SCPForwarder) : Prop :=
  0 <= bytes_remaining self
  /\ file_size self = bytes_remaining self
  /\ bytes_to_write self = 0
  /\ match file_command self, file_mode self with
     | None, None => bytes_remaining self = 0 /\ file_name self = []
     | Some letter, Some mode =>
       (letter = u "C" \/ letter = u "D")
       /\ length mode = 4%nat
       /\ forallb is_octal mode = true
       /\ forallb is_dot (file_name self) = true
     | _, _ => False
     end.

(** The chunks of a sequence that hold ASCII bytes only. *)
Definition all_ascii (chunks : list (bytes * bool)) : bool :=
  forallb (fun c => forallb (in_range 0 127) (fst c)) chunks.

(** The calls a run of [sendall] makes on what is still unsent, with a
    primitive that may report that nothing was written: they either write
    the buffer whole ([true]) or end with the first call that reports 0
    ([false]). *)
Inductive attempts : bytes -> list (bytes * Z) -> bool -> Prop :=
| attempts_done : attempts [] [] true
| attempts_stall : forall rest,
    rest <> [] -> attempts rest [(rest, 0)] false
| attempts_call : forall rest n calls whole,
    0 < n <= Z.of_nat (length rest) ->
    attempts (skipn (Z.to_nat n) rest) calls whole ->
    attempts rest ((rest, n) :: calls) whole.

(** The bytes that the calls report as written. *)
Definition written (calls : list (bytes * Z)) : Z :=
  fold_right (fun call acc => snd call + acc) 0 calls.

(** [sub] occurs in [data]. *)
Definition occurs (sub data : bytes) : Prop :=
  exists pre post, data = pre ++ sub ++ post.

(** The world [w'] comes after [w] with some calls added, all of them
    among [P]. *)
Definition extends {W chan H : Type} (P : event chan -> Prop)
    (w w' : World W chan H) : Prop :=
  exists evs, trace w' = trace w ++ evs /\ Forall P evs.

(** Whatever the piece [m] of the relay does, the calls it adds are
    among [P]. *)
Definition emits {W chan H A : Type} (P : event chan -> Prop)
    (m : run W chan H A) : Prop :=
  forall w r w', m w = Some (r, w') -> extends P w w'.

(** The calls of the teardown of channel [c]. *)
Definition teardown_event {chan : Type} (c : chan) (ev : event chan) : Prop :=
  match ev with
  | EvSendUserMessage c' _ | EvUnlink c' | EvBaseCloseSession c' => c' = c
  | _ => False
  end.

(** The calls of the loop of [forward], by the channel they are made on. *)
Definition loop_event {chan : Type} (client server : chan) (ev : event chan)
    : Prop :=
  match ev with
  | EvRecv c _ _ | EvSend c _ _ _ | EvRecvExitStatus c _ =>
    c = client \/ c = server
  | EvSendExitStatus c _ | EvSendUserMessage c _ | EvUnlink c
  | EvBaseCloseSession c => c = client
  | EvClose c => c = server
  | EvSleep => True
  | EvGetPty _ | EvExecCommand _ _ => False
  end.

(** The simulated channels with send primitives that write at most two
    bytes a call. *)
Definition sim_api_two : Paramiko Sim side :=
  {| closed := closed sim_api;
     eof_received := eof_received sim_api;
     remote_chanid := remote_chanid sim_api;
     running := running sim_api;
     get_pty := get_pty sim_api;
     exec_command := exec_command sim_api;
     recv_ready := recv_ready sim_api;
     recv := recv sim_api;
     send := fun _ => at_most_two;
     recv_stderr_ready := recv_stderr_ready sim_api;
     recv_stderr := recv_stderr sim_api;
     send_stderr := fun _ => at_most_two;
     exit_status_ready := exit_status_ready sim_api;
     recv_exit_status := recv_exit_status sim_api;
     send_exit_status := send_exit_status sim_api;
     close := close sim_api;
     send_user_message := send_user_message sim_api;
     unlink := unlink sim_api;
     base_closed := base_closed sim_api;
     base_close_session := base_close_session sim_api;
     sleep := sleep sim_api |}.


(** A send primitive that writes four bytes of a buffer longer than that
    and nothing of a shorter one. *)
Definition four_then_nothing (data : bytes) (w : Sim) : Z * Sim :=
  (if (4 <? length data)%nat then 4 else 0, w).

(** * Properties *)

(** ** The pattern of [handle_command] *)

(** The decoder on the shortest and the longest forms, and on the
    sequences it refuses: an overlong form, a surrogate, a code point
    above U+10FFFF, a sequence cut short, a lone continuation byte. *)
Example utf8_decode_examples :
  utf8_decode (b "scp") = Some (u "scp")
  /\ utf8_decode [xc3; xa9] = Some [233%N]
  /\ utf8_decode [xe2; x82; xac] = Some [8364%N]
  /\ utf8_decode [xf0; x9f; x98; x80] = Some [128512%N]
  /\ utf8_decode [xc0; x80] = None
  /\ utf8_decode [xed; xa0; x80] = None
  /\ utf8_decode [xf4; x90; x80; x80] = None
  /\ utf8_decode [xe2; x82] = None
  /\ utf8_decode [x80] = None.
Proof. repeat split. Qed.

(** The matcher on lines with and without a match. The white space of
    the pattern may be any white-space character, the name may hold
    spaces, and what follows the newline is not looked at. *)
Example re_match_c_command_examples :
  re_match_c_command (u "C0644 13 test.txt" ++ [chr_newline])
  = Some (u "C", u "0644", u "13", u "test.txt")
  /\ re_match_c_command (u "D0755 0 my dir" ++ [chr_newline] ++ u "rest")
     = Some (u "D", u "0755", u "0", u "my dir")
  /\ re_match_c_command (u "C0644" ++ [9%N] ++ u "007" ++ [160%N; chr_newline])
     = Some (u "C", u "0644", u "007", [])
  /\ re_match_c_command (u "C0644 13 test.txt") = None
  /\ re_match_c_command (u "C0844 13 test.txt" ++ [chr_newline]) = None
  /\ re_match_c_command (u "C644 13 test.txt" ++ [chr_newline]) = None
  /\ re_match_c_command (u "C0644  13 test.txt" ++ [chr_newline]) = None
  /\ re_match_c_command (u "C0644 13test.txt" ++ [chr_newline]) = None
  /\ re_match_c_command (u "E" ++ [chr_newline]) = None
  /\ int_of_digits (u "007") = 7.
Proof. repeat split. Qed.

Ltac unfold_classes :=
  unfold is_CD, is_octal, is_digit, is_dot, is_space, chr_newline in *.

Ltac bool_to_prop :=
  repeat match goal with
         | H : _ && _ = true |- _ => apply andb_prop in H; destruct H
         | H : _ || _ = true |- _ => apply orb_prop in H; destruct H
         | H : N.leb _ _ = true |- _ => apply N.leb_le in H
         | H : N.eqb _ _ = true |- _ => apply N.eqb_eq in H
         end.

Lemma space_not_digit c : is_space c = true -> is_digit c = false.
Proof.
  intros Hs. destruct (is_digit c) eqn:Hd; [|reflexivity].
  unfold_classes. bool_to_prop; lia.
Qed.

Lemma newline_not_dot : is_dot chr_newline = false.
Proof. reflexivity. Qed.

Lemma not_dot_newline c : is_dot c = false -> c = chr_newline.
Proof.
  unfold is_dot. intros Hc. apply negb_false_iff in Hc.
  now apply N.eqb_eq in Hc.
Qed.

(** The greedy prefix stops at the first character outside the class... *)
Lemma span_stops p pre x post :
  forallb p pre = true -> p x = false ->
  span p (pre ++ x :: post) = (pre, x :: post).
Proof.
  intros Hpre Hx. induction pre as [|c pre IH]; simpl in *.
  - now rewrite Hx.
  - apply andb_prop in Hpre. destruct Hpre as [Hc Hpre].
    rewrite Hc, (IH Hpre). reflexivity.
Qed.

(** ... and it splits its argument there. *)
Lemma span_splits p s pre post :
  span p s = (pre, post) ->
  s = pre ++ post /\ forallb p pre = true
  /\ match post with [] => True | x :: _ => p x = false end.
Proof.
  revert pre post. induction s as [|c s IH]; simpl; intros pre post Hsp.
  - inversion Hsp; subst. repeat split.
  - destruct (p c) eqn:Hc.
    + destruct (span p s) as [pre' post'] eqn:Hs. inversion Hsp; subst.
      destruct (IH _ _ eq_refl) as (-> & Hall & Hpost).
      simpl. rewrite Hc, Hall. repeat split. exact Hpost.
    + inversion Hsp; subst. simpl. rewrite Hc. repeat split.
Qed.

(** Every way of reading [command] as a control line is the one the
    matcher returns. *)
Lemma re_match_c_command_complete command g1 g2 g3 g4 :
  c_command_line command g1 g2 g3 g4 ->
  re_match_c_command command = Some (g1, g2, g3, g4).
Proof.
  intros (c & w1 & w2 & rest & -> & -> & Hc & Hlen & Hoct & Hw1 & Hne &
          Hdig & Hw2 & Hdot).
  destruct g2 as [|m1 [|m2 [|m3 [|m4 [|? ?]]]]]; try discriminate.
  destruct g3 as [|d size]; [congruence|].
  cbn [app re_match_c_command].
  rewrite Hc, Hoct, Hw1. cbn [andb].
  change (d :: size ++ w2 :: g4 ++ chr_newline :: rest)
    with ((d :: size) ++ w2 :: g4 ++ chr_newline :: rest).
  rewrite (span_stops is_digit _ _ _ Hdig (space_not_digit _ Hw2)).
  rewrite Hw2.
  rewrite (span_stops is_dot _ _ _ Hdot newline_not_dot).
  reflexivity.
Qed.

(** What the matcher returns is a reading of [command] as a control line. *)
Lemma re_match_c_command_sound command g1 g2 g3 g4 :
  re_match_c_command command = Some (g1, g2, g3, g4) ->
  c_command_line command g1 g2 g3 g4.
Proof.
  unfold re_match_c_command.
  destruct command as [|c [|m1 [|m2 [|m3 [|m4 [|w1 r]]]]]]; try discriminate.
  destruct (is_CD c && forallb is_octal [m1; m2; m3; m4] && is_space w1)
    eqn:Hhead; [|discriminate].
  destruct (span is_digit r) as [[|d size] [|w2 r']] eqn:Hsize;
    try discriminate.
  destruct (is_space w2) eqn:Hw2; [|discriminate].
  destruct (span is_dot r') as [name [|nl r'']] eqn:Hname; [discriminate|].
  intros Heq. inversion Heq; subst; clear Heq.
  apply andb_prop in Hhead. destruct Hhead as [Hhead Hw1].
  apply andb_prop in Hhead. destruct Hhead as [Hc Hoct].
  destruct (span_splits _ _ _ _ Hsize) as (-> & Hdig & _).
  destruct (span_splits _ _ _ _ Hname) as (-> & Hdot & Hnl).
  apply not_dot_newline in Hnl. subst nl.
  exists c, w1, w2, r''. repeat split; try assumption. discriminate.
Qed.

(** The two together: the groups of a control line are determined by the
    line. *)
Lemma c_command_line_unique command g1 g2 g3 g4 h1 h2 h3 h4 :
  c_command_line command g1 g2 g3 g4 ->
  c_command_line command h1 h2 h3 h4 ->
  (g1, g2, g3, g4) = (h1, h2, h3, h4).
Proof.
  intros Hg Hh. apply re_match_c_command_complete in Hg, Hh. congruence.
Qed.


Lemma int_of_digits_nonneg_from s acc :
  forallb is_digit s = true -> 0 <= acc ->
  0 <= fold_left (fun a c => a * 10 + digit_value c) s acc.
Proof.
  revert acc. induction s as [|c s IH]; simpl; intros acc Hs Hacc.
  - exact Hacc.
  - apply andb_prop in Hs. destruct Hs as [Hc Hs]. apply IH; [exact Hs|].
    unfold digit_value. unfold_classes. bool_to_prop. lia.
Qed.

Lemma int_of_digits_nonneg s :
  forallb is_digit s = true -> 0 <= int_of_digits s.
Proof. intros Hs. now apply int_of_digits_nonneg_from. Qed.

(** ** [SCPForwarder.handle_command] *)

Lemma int_of_str_within s :
  (length s <= 4300)%nat -> int_of_str s = Return (int_of_digits s).
Proof.
  intros Hlen. unfold int_of_str, max_str_digits.
  destruct (4300 <? Z.of_nat (length s)) eqn:Hlim; [|reflexivity].
  apply Z.ltb_lt in Hlim. lia.
Qed.

Lemma int_of_str_beyond s :
  (4300 < length s)%nat -> int_of_str s = Raise too_many_digits.
Proof.
  intros Hlen. unfold int_of_str, max_str_digits.
  destruct (4300 <? Z.of_nat (length s)) eqn:Hlim; [reflexivity|].
  apply Z.ltb_ge in Hlim. lia.
Qed.

Lemma int_of_str_returns s size :
  int_of_str s = Return size ->
  size = int_of_digits s /\ (length s <= 4300)%nat.
Proof.
  unfold int_of_str, max_str_digits.
  destruct (4300 <? Z.of_nat (length s)) eqn:Hlim; [discriminate|].
  apply Z.ltb_ge in Hlim. intros Heq. inversion Heq. split; [reflexivity|lia].
Qed.

Lemma int_of_str_raises s e :
  int_of_str s = Raise e -> e = too_many_digits /\ (4300 < length s)%nat.
Proof.
  unfold int_of_str, max_str_digits.
  destruct (4300 <? Z.of_nat (length s)) eqn:Hlim; [|discriminate].
  apply Z.ltb_lt in Hlim. intros Heq. inversion Heq. split; [reflexivity|lia].
Qed.

(** The fields after a control line whose size [int] returns. *)
Lemma handle_command_parsed traffic command g1 g2 g3 g4 size self :
  utf8_decode traffic = Some command ->
  c_command_line command g1 g2 g3 g4 ->
  int_of_str g3 = Return size ->
  handle_command traffic self
  = (Return traffic,
     {| await_response := true;
        bytes_remaining := size;
        bytes_to_write := bytes_to_write self;
        file_command := Some g1;
        file_mode := Some g2;
        file_size := size;
        file_name := g4;
        got_c_command := true |}).
Proof.
  intros Hdec Hline Hint. unfold handle_command.
  rewrite Hdec, (re_match_c_command_complete _ _ _ _ _ Hline), Hint.
  reflexivity.
Qed.

(** The fields after a control line whose size [int] refuses. *)
Lemma handle_command_refused traffic command g1 g2 g3 g4 e self :
  utf8_decode traffic = Some command ->
  c_command_line command g1 g2 g3 g4 ->
  int_of_str g3 = Raise e ->
  handle_command traffic self
  = (Raise e,
     {| await_response := await_response self;
        bytes_remaining := bytes_remaining self;
        bytes_to_write := bytes_to_write self;
        file_command := Some g1;
        file_mode := Some g2;
        file_size := file_size self;
        file_name := file_name self;
        got_c_command := true |}).
Proof.
  intros Hdec Hline Hint. unfold handle_command.
  rewrite Hdec, (re_match_c_command_complete _ _ _ _ _ Hline), Hint.
  reflexivity.
Qed.

(** C1, as the code has it. A chunk that decodes to a control line (the
    letter C or D, four octal digits, a white-space character, the decimal
    size, a white-space character, the name, a newline) whose size is
    written with at most 4300 digits makes [handle_command] set
    [file_command] to the letter, [file_mode] to the four digits,
    [file_size] and [bytes_remaining] to the size, [file_name] to the name,
    [got_c_command] and [await_response] to true, and return the chunk as
    it is; [handle_traffic] then hands the next chunk to
    [process_response]. With more digits, [int] raises [ValueError] when
    [got_c_command], [file_command] and [file_mode] are assigned and the
    other fields are not. The line C0644 13 test.txt gives C, 0644, 13 and
    test.txt. *)
Theorem handle_command_control_line :
  forall traffic command g1 g2 g3 g4 self,
    utf8_decode traffic = Some command ->
    c_command_line command g1 g2 g3 g4 ->
    let self' :=
      {| await_response := true;
         bytes_remaining := int_of_digits g3;
         bytes_to_write := bytes_to_write self;
         file_command := Some g1;
         file_mode := Some g2;
         file_size := int_of_digits g3;
         file_name := g4;
         got_c_command := true |} in
    ((length g3 <= 4300)%nat ->
     handle_command traffic self = (Return traffic, self')
     /\ (forall scp_command next isclient,
            startswith scp_command (b "scp") = true ->
            handle_traffic scp_command next isclient self'
            = process_response next (set_await_response false self')))
    /\ ((4300 < length g3)%nat ->
        handle_command traffic self
        = (Raise too_many_digits,
           {| await_response := await_response self;
              bytes_remaining := bytes_remaining self;
              bytes_to_write := bytes_to_write self;
              file_command := Some g1;
              file_mode := Some g2;
              file_size := file_size self;
              file_name := file_name self;
              got_c_command := true |}))
    /\ handle_command (bline "C0644 13 test.txt") init
       = (Return (bline "C0644 13 test.txt"),
          {| await_response := true;
             bytes_remaining := 13;
             bytes_to_write := 0;
             file_command := Some (u "C");
             file_mode := Some (u "0644");
             file_size := 13;
             file_name := u "test.txt";
             got_c_command := true |}).
Proof.
  intros traffic command g1 g2 g3 g4 self Hdec Hline self'.
  split; [|split].
  - intros Hlen. split.
    + exact (handle_command_parsed _ _ _ _ _ _ _ self Hdec Hline
               (int_of_str_within g3 Hlen)).
    + intros scp_command next isclient Hscp. unfold handle_traffic.
      rewrite Hscp. reflexivity.
  - intros Hlen.
    exact (handle_command_refused _ _ _ _ _ _ _ self Hdec Hline
             (int_of_str_beyond g3 Hlen)).
  - reflexivity.
Qed.

Lemma handle_command_control_line_witness :
  handle_command (bline "D0755 0 subdir") init
  = (Return (bline "D0755 0 subdir"),
     {| await_response := true;
        bytes_remaining := 0;
        bytes_to_write := 0;
        file_command := Some (u "D");
        file_mode := Some (u "0755");
        file_size := 0;
        file_name := u "subdir";
        got_c_command := true |}).
Proof.
  assert (Hline : c_command_line (u "D0755 0 subdir" ++ [chr_newline])
                    (u "D") (u "0755") (u "0") (u "subdir")).
  { exists 68%N, 32%N, 32%N, []. repeat split; try reflexivity. discriminate. }
  destruct (handle_command_control_line
              (bline "D0755 0 subdir") (u "D0755 0 subdir" ++ [chr_newline])
              (u "D") (u "0755") (u "0") (u "subdir") init eq_refl Hline)
    as (Hwithin & _ & _).
  apply Hwithin. cbn. lia.
Defined.

(** C1, as it is stated, fails: the chunk C0644, a space, 4300 zeros and a
    7, a space, x and a newline decodes to a control line, and
    [handle_command] raises [ValueError] on it without setting the size,
    the name or [await_response]. *)
Lemma handle_command_control_line_counterexample :
  utf8_decode long_size_line
  = Some (u "C0644 " ++ long_size ++ u " x" ++ [chr_newline])
  /\ c_command_line (u "C0644 " ++ long_size ++ u " x" ++ [chr_newline])
                    (u "C") (u "0644") long_size (u "x")
  /\ handle_command long_size_line init
     = (Raise too_many_digits,
        {| await_response := false;
           bytes_remaining := 0;
           bytes_to_write := 0;
           file_command := Some (u "C");
           file_mode := Some (u "0644");
           file_size := 0;
           file_name := [];
           got_c_command := true |})
  /\ fst (handle_command long_size_line init) <> Return long_size_line.
Proof.
  split; [vm_compute; reflexivity|]. split.
  - exists 67%N, 32%N, 32%N, [].
    repeat split; try (vm_compute; reflexivity).
    intros Hnil. apply (f_equal (@length N)) in Hnil. vm_compute in Hnil.
    discriminate.
  - split; [vm_compute; reflexivity|].
    intros Heq. vm_compute in Heq. discriminate.
Qed.




(** ** [SCPForwarder.handle_traffic] *)

(** The branch taken when a response is awaited. *)
Lemma handle_traffic_response scp_command traffic isclient self :
  startswith scp_command (b "scp") = true ->
  await_response self = true ->
  handle_traffic scp_command traffic isclient self
  = process_response traffic (set_await_response false self).
Proof. intros Hscp Hawait. unfold handle_traffic. now rewrite Hscp, Hawait. Qed.

(** The branch taken while [bytes_remaining] is not zero. *)
Lemma handle_traffic_data scp_command traffic isclient self :
  startswith scp_command (b "scp") = true ->
  await_response self = false ->
  bytes_remaining self <> 0 ->
  handle_traffic scp_command traffic isclient self
  = process_data traffic (set_got_c_command false self).
Proof.
  intros Hscp Hawait Hrem. unfold handle_traffic. rewrite Hscp, Hawait.
  apply Z.eqb_neq in Hrem. now rewrite Hrem.
Qed.

(** What a call of [handle_command] leaves in the fields. *)
Lemma handle_command_fields traffic self :
  let self' := snd (handle_command traffic self) in
  (self' = set_got_c_command false self)
  \/ (exists command g1 g2 g3 g4,
         utf8_decode traffic = Some command
         /\ c_command_line command g1 g2 g3 g4
         /\ ((exists size,
                 int_of_str g3 = Return size
                 /\ self' = set_await_response true
                              (set_size_name size g4
                                 (set_command_mode g1 g2
                                    (set_got_c_command true self))))
             \/ ((4300 < length g3)%nat
                 /\ self' = set_command_mode g1 g2
                              (set_got_c_command true self)))).
Proof.
  unfold handle_command.
  destruct (utf8_decode traffic) as [command|] eqn:Hdec; [|now left].
  destruct (re_match_c_command command) as [[[[g1 g2] g3] g4]|] eqn:Hm;
    [|now left].
  right. exists command, g1, g2, g3, g4. split; [reflexivity|].
  split; [now apply re_match_c_command_sound|].
  destruct (int_of_str g3) as [size|e] eqn:Hint.
  - left. exists size. now split.
  - right. split; [|reflexivity]. now apply (int_of_str_raises g3 e).
Qed.

(** In a reachable state a response is only awaited with the flag of the
    parsed line still set, and [file_size] is [bytes_remaining]. *)
Lemma reachable_invariant scp_command self :
  reachable scp_command self ->
  (await_response self = true -> got_c_command self = true)
  /\ file_size self = bytes_remaining self.
Proof.
  induction 1 as [|self traffic isclient Hreach [IHflag IHsize]].
  - split; [discriminate|reflexivity].
  - unfold handle_traffic.
    destruct (negb (startswith scp_command (b "scp"))); [now split|].
    destruct (await_response self) eqn:Hawait;
      [split; [discriminate|exact IHsize]|].
    destruct ((bytes_remaining self =? 0) && negb (got_c_command self)).
    + destruct (handle_command_fields traffic self) as [Heq|Heq].
      * rewrite Heq. simpl. split; [congruence|exact IHsize].
      * destruct Heq as (command & g1 & g2 & g3 & g4 & _ & _ & Heq).
        destruct Heq as [(size & _ & Heq)|(_ & Heq)]; rewrite Heq; simpl.
        -- now split.
        -- split; [reflexivity|exact IHsize].
    + simpl. split; [congruence|exact IHsize].
Qed.

(** C5, as the code has it. In every state reached through calls of
    [handle_traffic], the conditions that hold are one of these three and
    no others: awaiting a control line alone; streaming payload alone;
    awaiting a response together with streaming payload, with
    [got_c_command] set. So at most one of the three holds except while a
    response is awaited: [handle_command] sets [await_response] and
    [got_c_command] together, and [await_response] is never true with
    [got_c_command] clear. *)
Theorem reachable_conditions :
  forall scp_command self,
    reachable scp_command self ->
    let conditions :=
      (awaiting_control_line self, awaiting_response self,
       streaming_payload self) in
    conditions = (true, false, false)
    \/ conditions = (false, false, true)
    \/ (conditions = (false, true, true) /\ got_c_command self = true).
Proof.
  intros scp_command self Hreach conditions. subst conditions.
  destruct (reachable_invariant _ _ Hreach) as [Hflag _].
  unfold awaiting_control_line, awaiting_response, streaming_payload.
  destruct (await_response self).
  - right. right. rewrite (Hflag eq_refl). cbn.
    rewrite orb_true_r. now split.
  - destruct (bytes_remaining self =? 0), (got_c_command self); cbn;
      [right; left|left|right; left|right; left]; reflexivity.
Qed.

Lemma reachable_conditions_witness :
  let self :=
    snd (handle_traffic (b "scp -t /tmp") (bline "C0644 13 test.txt")
           true init) in
  (awaiting_control_line self, awaiting_response self, streaming_payload self)
  = (true, false, false)
  \/ (awaiting_control_line self, awaiting_response self,
      streaming_payload self)
     = (false, false, true)
  \/ ((awaiting_control_line self, awaiting_response self,
       streaming_payload self)
      = (false, true, true)
      /\ got_c_command self = true).
Proof.
  intros self.
  apply (reachable_conditions (b "scp -t /tmp")).
  apply reachable_step. apply reachable_init.
Defined.

(** The three combinations are those of reachable states only: fields
    with [await_response] set and [got_c_command] clear show a fourth. *)
Lemma conditions_of_unreachable_fields :
  let self := set_await_response true init in
  (awaiting_control_line self, awaiting_response self, streaming_payload self)
  = (false, true, false)
  /\ ~ reachable (b "scp -t /tmp") self.
Proof.
  split; [reflexivity|].
  intros Hreach. apply reachable_invariant in Hreach.
  destruct Hreach as [Hflag _]. specialize (Hflag eq_refl). discriminate.
Qed.

(** C5, as it is stated, fails: the state reached from the initial one by
    the line C0644 13 test.txt awaits a response and, by its flags, streams
    payload. *)
Lemma reachable_conditions_counterexample :
  let self := snd (handle_traffic (b "scp -t /tmp")
                     (bline "C0644 13 test.txt") true init) in
  reachable (b "scp -t /tmp") self
  /\ awaiting_response self = true
  /\ streaming_payload self = true
  /\ at_most_one (awaiting_control_line self) (awaiting_response self)
                 (streaming_payload self) = false.
Proof.
  split; [apply reachable_step, reachable_init|].
  repeat split.
Qed.

(** Handing over a sequence of chunks with every [isclient] replaced. *)
Lemma feed_ignores_isclient scp_command (side_of : bytes * bool -> bool)
    chunks self :
  feed scp_command (map (fun c => (fst c, side_of c)) chunks) self
  = feed scp_command chunks self.
Proof.
  revert self. induction chunks as [|[traffic isclient] chunks IH]; intros self.
  - reflexivity.
  - cbn [map feed fst].
    change (handle_traffic scp_command traffic (side_of (traffic, isclient)) self)
      with (handle_traffic scp_command traffic isclient self).
    destruct (handle_traffic scp_command traffic isclient self) as [r self'].
    now rewrite IH.
Qed.

(** C6, as the code has it. [handle_traffic] does not look at [isclient]:
    a chunk is handled in the same way, with the same result and the same
    fields afterwards, whichever side it comes from; so the results and
    the states of a whole sequence of chunks are those of the same chunks
    all taken as coming from the client side, and a chunk from the server
    side that answers a control line is what clears [await_response]. *)
Theorem handle_traffic_ignores_isclient :
  forall scp_command traffic self chunks,
    handle_traffic scp_command traffic false self
    = handle_traffic scp_command traffic true self
    /\ feed scp_command chunks self
       = feed scp_command (map (fun c => (fst c, true)) chunks) self
    /\ (startswith scp_command (b "scp") = true ->
        await_response self = true ->
        handle_traffic scp_command traffic false self
        = (Return traffic, set_await_response false self)).
Proof.
  intros scp_command traffic self chunks. split; [reflexivity|]. split.
  - symmetry. apply (feed_ignores_isclient scp_command (fun _ => true)).
  - intros Hscp Hawait.
    now rewrite (handle_traffic_response _ _ _ _ Hscp Hawait).
Qed.

Lemma handle_traffic_ignores_isclient_witness :
  handle_traffic (b "scp -t /tmp") [x00] false
    (snd (handle_command (bline "C0644 13 test.txt") init))
  = (Return [x00],
     set_await_response false
       (snd (handle_command (bline "C0644 13 test.txt") init))).
Proof.
  apply (handle_traffic_ignores_isclient (b "scp -t /tmp") [x00]
           (snd (handle_command (bline "C0644 13 test.txt") init)) []);
    reflexivity.
Defined.

(** C6, as it is stated, fails: for a command that begins with scp, the
    line C0644 13 test.txt handled with [isclient] false changes the
    fields of the initial state. *)
Lemma handle_traffic_server_chunk_counterexample :
  startswith (b "scp -f /tmp") (b "scp") = true
  /\ snd (handle_traffic (b "scp -f /tmp") (bline "C0644 13 test.txt")
            false init)
     = {| await_response := true;
          bytes_remaining := 13;
          bytes_to_write := 0;
          file_command := Some (u "C");
          file_mode := Some (u "0644");
          file_size := 13;
          file_name := u "test.txt";
          got_c_command := true |}
  /\ snd (handle_traffic (b "scp -f /tmp") (bline "C0644 13 test.txt")
            false init)
     <> init.
Proof. repeat split. discriminate. Qed.

(** Once [bytes_remaining] is not zero and no response is awaited, every
    chunk goes to [process_data] and the fields but the flag stay. *)
Lemma feed_data scp_command chunks self :
  startswith scp_command (b "scp") = true ->
  await_response self = false ->
  bytes_remaining self <> 0 ->
  feed scp_command chunks self
  = (map (fun c => Return (fst c)) chunks,
     match chunks with [] => self | _ :: _ => set_got_c_command false self end).
Proof.
  intros Hscp. revert self.
  induction chunks as [|[traffic isclient] chunks IH]; intros self Hawait Hrem.
  - reflexivity.
  - cbn [feed]. rewrite (handle_traffic_data _ _ _ _ Hscp Hawait Hrem).
    unfold process_data. rewrite IH by assumption.
    destruct chunks; reflexivity.
Qed.

(** C7. No method of the forwarder decrements [bytes_remaining]: it is 0
    after [__init__], and a call of [handle_traffic] or [handle_command]
    either leaves it as it is or, on a C or D control line, assigns the size
    that [int] returns for the line. So after a control line has been
    parsed with a positive size and the chunk that answers it has been
    handled, every further chunk is handed to [process_data]:
    [bytes_remaining] stays the size, the fields of the file stay, and no
    chunk is parsed as a control line again. *)
Theorem bytes_remaining_only_assigned :
  forall scp_command line command g1 g2 g3 g4 size self answer isclient,
    startswith scp_command (b "scp") = true ->
    utf8_decode line = Some command ->
    c_command_line command g1 g2 g3 g4 ->
    int_of_str g3 = Return size ->
    0 < size ->
    bytes_remaining init = 0
    /\ (forall traffic ic self0,
           let after_traffic :=
             snd (handle_traffic scp_command traffic ic self0) in
           let after_command := snd (handle_command traffic self0) in
           let assigned x :=
             x = bytes_remaining self0
             \/ exists command' h1 h2 h3 h4,
                 utf8_decode traffic = Some command'
                 /\ c_command_line command' h1 h2 h3 h4
                 /\ int_of_str h3 = Return x in
           assigned (bytes_remaining after_traffic)
           /\ assigned (bytes_remaining after_command)
           /\ snd (process_data traffic self0) = self0
           /\ snd (process_response traffic self0) = self0)
    /\ (let parsed := snd (handle_command line self) in
        let answered :=
          snd (handle_traffic scp_command answer isclient parsed) in
        forall chunks traffic ic,
          let self' := snd (feed scp_command chunks answered) in
          fst (feed scp_command chunks answered)
          = map (fun c => Return (fst c)) chunks
          /\ handle_traffic scp_command traffic ic self'
             = process_data traffic (set_got_c_command false self')
          /\ bytes_remaining self' = size
          /\ await_response self' = false
          /\ file_command self' = Some g1
          /\ file_mode self' = Some g2
          /\ file_size self' = size
          /\ file_name self' = g4).
Proof.
  intros scp_command line command g1 g2 g3 g4 size self answer isclient
         Hscp Hdec Hline Hint Hpos.
  split; [reflexivity|]. split.
  - intros traffic ic self0 after_traffic after_command assigned.
    assert (Hcommand : assigned (bytes_remaining after_command)).
    { subst after_command assigned. cbv beta.
      destruct (handle_command_fields traffic self0) as [Heq|Heq].
      - left. now rewrite Heq.
      - destruct Heq as (command' & h1 & h2 & h3 & h4 & Hd & Hl & Heq).
        destruct Heq as [(x & Hx & Heq)|(_ & Heq)]; rewrite Heq.
        + right. now exists command', h1, h2, h3, h4.
        + now left. }
    repeat split; try exact Hcommand.
    subst after_traffic. unfold handle_traffic.
    destruct (negb (startswith scp_command (b "scp"))); [now left|].
    destruct (await_response self0); [now left|].
    destruct ((bytes_remaining self0 =? 0) && negb (got_c_command self0));
      [exact Hcommand|now left].
  - intros parsed answered chunks traffic ic self'.
    pose proof (handle_command_parsed line command g1 g2 g3 g4 size self
                  Hdec Hline Hint) as Hparsed.
    assert (Hanswered : answered
                        = set_await_response false parsed).
    { subst answered parsed. rewrite Hparsed. cbn [snd].
      rewrite handle_traffic_response; [reflexivity|exact Hscp|reflexivity]. }
    assert (Hfields : await_response answered = false
                      /\ bytes_remaining answered = size).
    { rewrite Hanswered. subst parsed. rewrite Hparsed. now split. }
    destruct Hfields as [Hawait Hrem].
    assert (Hne : bytes_remaining answered <> 0) by lia.
    subst self'. rewrite (feed_data scp_command chunks answered Hscp Hawait Hne).
    cbn [fst snd]. split; [reflexivity|].
    assert (Hsame : forall s, s = answered \/ s = set_got_c_command false answered ->
              await_response s = false /\ bytes_remaining s = size
              /\ file_command s = Some g1 /\ file_mode s = Some g2
              /\ file_size s = size /\ file_name s = g4).
    { intros s [-> | ->]; rewrite Hanswered; subst parsed; rewrite Hparsed;
        repeat split. }
    destruct (Hsame (match chunks with
                     | [] => answered
                     | _ :: _ => set_got_c_command false answered
                     end)) as (Ha & Hb & Hc & Hm & Hs & Hn).
    { destruct chunks; [now left|now right]. }
    split.
    + apply handle_traffic_data; [exact Hscp|exact Ha|lia].
    + repeat split; assumption.
Qed.

Lemma bytes_remaining_only_assigned_witness :
  let answered :=
    snd (handle_traffic (b "scp -t /tmp") [x00] false
           (snd (handle_command (bline "C0644 13 test.txt") init))) in
  let self' :=
    snd (feed (b "scp -t /tmp")
           [(b "Hello, world!", true); (bline "C0600 5 next", true)]
           answered) in
  bytes_remaining self' = 13 /\ file_name self' = u "test.txt".
Proof.
  pose proof (bytes_remaining_only_assigned
                (b "scp -t /tmp") (bline "C0644 13 test.txt")
                (u "C0644 13 test.txt" ++ [chr_newline])
                (u "C") (u "0644") (u "13") (u "test.txt") 13 init [x00] false
                eq_refl eq_refl) as Hthm.
  assert (Hline : c_command_line (u "C0644 13 test.txt" ++ [chr_newline])
                    (u "C") (u "0644") (u "13") (u "test.txt")).
  { exists 67%N, 32%N, 32%N, []. repeat split; try reflexivity. discriminate. }
  destruct (Hthm Hline eq_refl eq_refl) as (_ & _ & Hfeed).
  destruct (Hfeed [(b "Hello, world!", true); (bline "C0600 5 next", true)]
              [] true) as (_ & _ & Hrem & _ & _ & _ & _ & Hname).
  split; [exact Hrem|exact Hname].
Defined.

(** ** [SCPBaseForwarder.close_session] *)

Ltac run_step :=
  unfold bind, when, ret, attr, query, call, act, send_message; cbn [env self trace].

(** C3. On a channel that is not closed, [close_session] makes these calls
    and no others, in this order: when no end-of-file has been received,
    it sends the channel-EOF message for the remote id of the channel and
    then the channel-request message for eow@openssh.com that wants no
    reply; in every case it then sends the channel-close message, then
    unlinks the channel from its transport, and then calls the
    [close_session] of the base class. *)
Theorem close_session_sequence :
  forall (W chan H : Type) (api : Paramiko W chan) (channel : chan)
         (w : World W chan H),
    closed api channel (env w) = false ->
    let id := remote_chanid api channel in
    let channel_eof := [add_byte cMSG_CHANNEL_EOF; add_int id] in
    let channel_request :=
      [add_byte cMSG_CHANNEL_REQUEST; add_int id;
       add_string "eow@openssh.com"; add_boolean false] in
    let channel_close := [add_byte cMSG_CHANNEL_CLOSE; add_int id] in
    let no_eof := negb (eof_received api channel (env w)) in
    let e1 :=
      if no_eof then
        send_user_message api channel channel_request
          (send_user_message api channel channel_eof (env w))
      else env w in
    let e2 :=
      base_close_session api channel
        (unlink api channel
           (send_user_message api channel channel_close e1)) in
    close_session api channel w
    = Some (Return tt,
            mkWorld e2 (self w)
              (trace w
               ++ (if no_eof then
                     [EvSendUserMessage channel channel_eof;
                      EvSendUserMessage channel channel_request]
                   else [])
               ++ [EvSendUserMessage channel channel_close;
                   EvUnlink channel;
                   EvBaseCloseSession channel])).
Proof.
  intros W chan H api channel w Hopen id channel_eof channel_request
         channel_close no_eof e1 e2.
  subst e2 e1 no_eof channel_close channel_request channel_eof id.
  unfold close_session. run_step. rewrite Hopen.
  destruct (eof_received api channel (env w)); cbn [negb]; run_step;
    rewrite <- ?app_assoc; reflexivity.
Qed.

Lemma close_session_sequence_witness :
  close_session sim_api Client (mkWorld (sim_start 4) tt [])
  = Some (Return tt,
          mkWorld
            (mkSim (mkSimChannel true false None [] [] 4) (sim_idle 4) true
                   [Server])
            tt
            [EvSendUserMessage Client [add_byte 96%N; add_int 7%N];
             EvSendUserMessage Client
               [add_byte 98%N; add_int 7%N; add_string "eow@openssh.com";
                add_boolean false];
             EvSendUserMessage Client [add_byte 97%N; add_int 7%N];
             EvUnlink Client;
             EvBaseCloseSession Client]).
Proof.
  apply (close_session_sequence Sim side unit sim_api Client
           (mkWorld (sim_start 4) tt [])).
  reflexivity.
Defined.

(** The world that [close_session] leaves on a channel that is not
    closed. *)
Lemma close_session_open {W chan H : Type} (api : Paramiko W chan)
    (channel : chan) (w : World W chan H) :
  closed api channel (env w) = false ->
  exists e evs,
    close_session api channel w
    = Some (Return tt, mkWorld e (self w) (trace w ++ evs))
    /\ e = base_close_session api channel
             (unlink api channel
                (send_user_message api channel
                   [add_byte cMSG_CHANNEL_CLOSE;
                    add_int (remote_chanid api channel)]
                   (if eof_received api channel (env w) then env w
                    else send_user_message api channel
                           [add_byte cMSG_CHANNEL_REQUEST;
                            add_int (remote_chanid api channel);
                            add_string "eow@openssh.com"; add_boolean false]
                           (send_user_message api channel
                              [add_byte cMSG_CHANNEL_EOF;
                               add_int (remote_chanid api channel)]
                              (env w)))))
    /\ forall c status, ~ In (EvSendExitStatus c status) evs.
Proof.
  intros Hopen. unfold close_session. run_step. rewrite Hopen.
  destruct (eof_received api channel (env w)); cbn [negb]; run_step;
    rewrite <- ?app_assoc; cbn [app];
    (eexists; eexists; split; [reflexivity|]; split; [reflexivity|]);
    intros c status Hin; simpl in Hin; intuition discriminate.
Qed.

(** On a closed channel [close_session] returns at once. *)
Lemma close_session_closed {W chan H : Type} (api : Paramiko W chan)
    (channel : chan) (w : World W chan H) :
  closed api channel (env w) = true ->
  close_session api channel w = Some (Return tt, w).
Proof.
  intros Hclosed. unfold close_session. run_step. now rewrite Hclosed.
Qed.

(** [close_session] returns, and what it adds to the calls made so far
    is no exit status. *)
Lemma close_session_returns {W chan H : Type} (api : Paramiko W chan)
    (channel : chan) (w : World W chan H) :
  exists w' evs,
    close_session api channel w = Some (Return tt, w')
    /\ trace w' = trace w ++ evs
    /\ self w' = self w
    /\ forall c status, ~ In (EvSendExitStatus c status) evs.
Proof.
  destruct (closed api channel (env w)) eqn:Hclosed.
  - exists w, []. rewrite (close_session_closed _ _ _ Hclosed).
    rewrite app_nil_r. repeat split. intros c status [].
  - destruct (close_session_open api channel w Hclosed)
      as (e & evs & Hrun & _ & Hnone).
    rewrite Hrun. eexists. exists evs. split; [reflexivity|]. cbn [trace self].
    repeat split. exact Hnone.
Qed.

(** C10. [close_session] on a channel that is closed sends nothing and
    changes nothing. Unlinking a channel marks it closed and the
    [close_session] of the base class leaves a closed channel closed, so a
    second call right after a first one does nothing. *)
Theorem close_session_idempotent :
  forall (W chan H : Type) (api : Paramiko W chan) (channel : chan)
         (w : World W chan H),
    (closed api channel (env w) = true ->
     close_session api channel w = Some (Return tt, w))
    /\ ((forall e, closed api channel (unlink api channel e) = true) ->
        (forall e, closed api channel e = true ->
                   closed api channel (base_close_session api channel e) = true) ->
        (close_session api channel;; close_session api channel) w
        = close_session api channel w).
Proof.
  intros W chan H api channel w. split.
  - apply close_session_closed.
  - intros Hunlink Hbase. unfold bind at 1.
    destruct (closed api channel (env w)) eqn:Hclosed.
    + rewrite (close_session_closed _ _ _ Hclosed).
      now apply close_session_closed.
    + destruct (close_session_open api channel w Hclosed)
        as (e & evs & Hrun & -> & _).
      rewrite Hrun. apply close_session_closed. cbn [env].
      apply Hbase, Hunlink.
Qed.

Lemma sim_unlink_closes c e : closed sim_api c (unlink sim_api c e) = true.
Proof.
  simpl. unfold sim_unlink.
  destruct (sim_closed (sim_chan c e)) eqn:Hc; [exact Hc|].
  destruct c; reflexivity.
Qed.

Lemma sim_base_close_session_closed c e :
  closed sim_api c e = true ->
  closed sim_api c (base_close_session sim_api c e) = true.
Proof. simpl. intros Hc. now rewrite Hc. Qed.

Lemma close_session_idempotent_witness :
  let closed_world :=
    mkWorld (mkSim (mkSimChannel true false None [] [] 4) (sim_idle 4) true
                   [Server]) tt (@nil (event side)) in
  let open_world := mkWorld (sim_start 4) tt (@nil (event side)) in
  close_session sim_api Client closed_world = Some (Return tt, closed_world)
  /\ (close_session sim_api Client;; close_session sim_api Client) open_world
     = close_session sim_api Client open_world.
Proof.
  split.
  - apply (close_session_idempotent Sim side unit sim_api Client). reflexivity.
  - apply (close_session_idempotent Sim side unit sim_api Client).
    + apply sim_unlink_closes.
    + apply sim_base_close_session_closed.
Defined.

(** ** [SCPBaseForwarder.sendall] *)

Lemma slice_from_skipn {A : Type} (data : list A) (sent : Z) :
  0 <= sent -> slice_from data sent = skipn (Z.to_nat sent) data.
Proof.
  intros Hsent. unfold slice_from.
  destruct (sent <? 0) eqn:Hneg; [apply Z.ltb_lt in Hneg; lia|reflexivity].
Qed.

(** The loop, started with [sent] bytes written, on a primitive that
    writes at least one byte of what it is handed. *)
Lemma sendall_loop_whole {W chan H : Type} (c : chan) (stderr : bool)
    (prim : bytes -> W -> Z * W) (data : bytes) :
  (forall d e, d <> [] -> 0 < fst (prim d e) <= Z.of_nat (length d)) ->
  forall fuel sent (w : World W chan H),
    0 <= sent <= Z.of_nat (length data) ->
    (length data - Z.to_nat sent < fuel)%nat ->
    exists w' calls,
      sendall_loop fuel data (primitive c stderr prim) sent w
      = Some (Return (Z.of_nat (length data)), w')
      /\ trace w' = trace w ++ send_events c stderr calls
      /\ self w' = self w
      /\ successive (skipn (Z.to_nat sent) data) calls.
Proof.
  intros Hprim. induction fuel as [|fuel IH]; intros sent w Hsent Hfuel.
  - lia.
  - cbn [sendall_loop].
    destruct (sent =? Z.of_nat (length data)) eqn:Hdone.
    + apply Z.eqb_eq in Hdone. subst sent. exists w, [].
      rewrite Nat2Z.id, skipn_all, app_nil_r.
      repeat split. constructor.
    + apply Z.eqb_neq in Hdone.
      rewrite slice_from_skipn by lia.
      set (rest := skipn (Z.to_nat sent) data).
      assert (Hlen : Z.of_nat (length rest) = Z.of_nat (length data) - sent).
      { subst rest. rewrite length_skipn. lia. }
      assert (Hrest : rest <> []).
      { intros Hnil. rewrite Hnil in Hlen. simpl in Hlen. lia. }
      unfold bind, primitive at 1, call.
      destruct (prim rest (env w)) as [n e] eqn:Hcall.
      pose proof (Hprim rest (env w) Hrest) as Hn.
      rewrite Hcall in Hn. cbn [fst] in Hn.
      destruct (n =? 0) eqn:Hzero; [apply Z.eqb_eq in Hzero; lia|].
      destruct (IH (sent + n) (mkWorld e (self w) (trace w ++ [EvSend c stderr rest n])))
        as (w' & calls & Hrun & Htrace & Hself & Hcalls); [lia|lia|].
      exists w', ((rest, n) :: calls). split; [exact Hrun|].
      split; [|split].
      * rewrite Htrace. cbn [trace send_events map fst snd].
        now rewrite <- app_assoc.
      * exact Hself.
      * constructor; [lia|].
        subst rest. rewrite skipn_skipn.
        replace (Z.to_nat n + Z.to_nat sent)%nat with (Z.to_nat (sent + n))
          by lia.
        exact Hcalls.
Qed.

(** C2. For a buffer that is not empty and a channel that does not report
    an exit status, when every call of the send primitive reports a number
    of bytes written, that is at least one byte and at most what the call
    was handed, [sendall] calls the primitive on what is still unsent until
    nothing is, and returns the length of the buffer. A primitive that
    writes 4 bytes a call is called 3 times on a buffer of 10 bytes (4, 4
    and 2 bytes) and [sendall] returns 10. *)
Theorem sendall_writes_whole_buffer :
  forall (W chan H : Type) (api : Paramiko W chan) (channel : chan)
         (stderr : bool) (prim : bytes -> W -> Z * W) (data : bytes)
         (fuel : nat) (w : World W chan H),
    data <> [] ->
    fst (exit_status_ready api channel (env w)) = false ->
    (forall d e, d <> [] -> 0 < fst (prim d e) <= Z.of_nat (length d)) ->
    (length data < fuel)%nat ->
    (exists w' calls,
        sendall api fuel channel data (primitive channel stderr prim) w
        = Some (Return (Z.of_nat (length data)), w')
        /\ trace w' = trace w ++ send_events channel stderr calls
        /\ successive data calls)
    /\ sendall sim_api 4 Server (b "0123456789") (chan_send sim_api Server)
         (mkWorld (sim_start 4) tt [])
       = Some (Return 10,
               mkWorld (sim_start 4) tt
                 [EvSend Server false (b "0123456789") 4;
                  EvSend Server false (b "456789") 4;
                  EvSend Server false (b "89") 2]).
Proof.
  intros W chan H api channel stderr prim data fuel w Hdata Hready Hprim Hfuel.
  split; [|reflexivity].
  unfold sendall. destruct data as [|x data]; [congruence|].
  unfold bind, query.
  destruct (exit_status_ready api channel (env w)) as [ready e] eqn:Hq.
  cbn [fst] in Hready. subst ready.
  destruct (sendall_loop_whole channel stderr prim (x :: data) Hprim fuel 0
              (mkWorld e (self w) (trace w)))
    as (w' & calls & Hrun & Htrace & _ & Hcalls); [lia|simpl in *; lia|].
  exists w', calls. repeat split; assumption.
Qed.

Lemma sendall_writes_whole_buffer_witness :
  exists w' calls,
    sendall sim_api 6 Client (b "hello")
      (primitive Client false at_most_two) (mkWorld (sim_start 0) tt [])
    = Some (Return 5, w')
    /\ trace w' = [] ++ send_events Client false calls
    /\ successive (b "hello") calls.
Proof.
  apply (sendall_writes_whole_buffer Sim side unit sim_api Client false
           at_most_two (b "hello") 6 (mkWorld (sim_start 0) tt [])).
  - discriminate.
  - reflexivity.
  - intros d e Hd. destruct d as [|x d]; [congruence|].
    unfold at_most_two. cbn [fst length]. lia.
  - simpl. lia.
Defined.

(** A primitive that reports more bytes than it was handed takes [sent]
    past the length of the buffer, and the loop does not end. *)
Lemma sendall_loop_past_the_end {W chan H : Type} (c : chan) (stderr : bool)
    (prim : bytes -> W -> Z * W) (data : bytes) :
  (forall d e, 0 < fst (prim d e)) ->
  forall fuel sent (w : World W chan H),
    Z.of_nat (length data) < sent ->
    sendall_loop fuel data (primitive c stderr prim) sent w = None.
Proof.
  intros Hprim. induction fuel as [|fuel IH]; intros sent w Hsent.
  - reflexivity.
  - cbn [sendall_loop].
    destruct (sent =? Z.of_nat (length data)) eqn:Hdone;
      [apply Z.eqb_eq in Hdone; lia|].
    unfold bind, primitive at 1, call.
    pose proof (Hprim (slice_from data sent) (env w)) as Hn.
    destruct (prim (slice_from data sent) (env w)) as [n e].
    cbn [fst] in Hn.
    destruct (n =? 0) eqn:Hzero; [apply Z.eqb_eq in Hzero; lia|].
    apply IH. lia.
Qed.

(** C9. For a buffer that is not empty and a channel that does not report
    an exit status, when the first call of the send primitive reports that
    no byte was written, [sendall] returns 0 after this one call, made on
    the whole buffer. *)
Theorem sendall_stops_on_zero :
  forall (W chan H : Type) (api : Paramiko W chan) (channel : chan)
         (stderr : bool) (prim : bytes -> W -> Z * W) (data : bytes)
         (fuel : nat) (w : World W chan H),
    data <> [] ->
    fst (exit_status_ready api channel (env w)) = false ->
    let e := snd (exit_status_ready api channel (env w)) in
    fst (prim data e) = 0 ->
    sendall api (S fuel) channel data (primitive channel stderr prim) w
    = Some (Return 0,
            mkWorld (snd (prim data e)) (self w)
                    (trace w ++ [EvSend channel stderr data 0])).
Proof.
  intros W chan H api channel stderr prim data fuel w Hdata Hready e Hzero.
  subst e. unfold sendall. destruct data as [|x data]; [congruence|].
  unfold bind, query.
  destruct (exit_status_ready api channel (env w)) as [ready e] eqn:Hq.
  cbn [fst snd] in *. subst ready. cbn [sendall_loop].
  change (0 =? Z.of_nat (length (x :: data))) with false. cbv iota.
  unfold bind, primitive, call. cbn [env self trace].
  change (slice_from (x :: data) 0) with (x :: data).
  destruct (prim (x :: data) e) as [n e']. cbn [fst snd] in *. subst n.
  reflexivity.
Qed.

Lemma sendall_stops_on_zero_witness :
  sendall sim_api 1 Server (b "0123456789") (chan_send sim_api Server)
    (mkWorld (sim_start 0) tt [])
  = Some (Return 0,
          mkWorld (sim_start 0) tt [EvSend Server false (b "0123456789") 0]).
Proof.
  apply (sendall_stops_on_zero Sim side unit sim_api Server false
           (send sim_api Server) (b "0123456789") 0
           (mkWorld (sim_start 0) tt [])).
  - discriminate.
  - reflexivity.
  - reflexivity.
Defined.

(** ** The loop of [SCPBaseForwarder.forward] *)

(** C4. In an iteration of the loop, after the four relay steps: when the
    server-side channel reports an exit status, the status read from it is
    sent to the client-side channel, [close_session] is called on the
    client-side channel, and the loop ends there; when the server-side
    channel reports none and the client-side channel reports one, the
    status is read, [close_session] is called on the client-side channel,
    and the loop ends there with no exit status sent to either channel. *)
Theorem forward_loop_exit_status :
  forall (W chan H : Type) (api : Paramiko W chan) (hooks : Hooks H)
         (session : Session chan) (server_channel client : chan)
         (BUF_LEN : N) (fuel : nat) (w0 w1 : World W chan H),
    running api (env w0) = true ->
    scp_channel session = Some client ->
    relay_all api hooks server_channel BUF_LEN fuel client w0
    = Some (Return tt, w1) ->
    let server_ready := exit_status_ready api server_channel (env w1) in
    (fst server_ready = true ->
     let status := recv_exit_status api server_channel (snd server_ready) in
     let w2 :=
       mkWorld (send_exit_status api client (fst status) (snd status))
               (self w1)
               (trace w1 ++ [EvRecvExitStatus server_channel (fst status);
                             EvSendExitStatus client (fst status)]) in
     forward_loop api hooks session server_channel BUF_LEN (S fuel) w0
     = close_session api client w2
     /\ exists w', close_session api client w2 = Some (Return tt, w'))
    /\ (fst server_ready = false ->
        let client_ready :=
          exit_status_ready api client (snd server_ready) in
        fst client_ready = true ->
        let status := recv_exit_status api client (snd client_ready) in
        let w2 :=
          mkWorld (snd status) (self w1)
                  (trace w1 ++ [EvRecvExitStatus client (fst status)]) in
        forward_loop api hooks session server_channel BUF_LEN (S fuel) w0
        = close_session api client w2
        /\ exists w' evs,
             close_session api client w2 = Some (Return tt, w')
             /\ trace w'
                = trace w1 ++ EvRecvExitStatus client (fst status) :: evs
             /\ forall c st, ~ In (EvSendExitStatus c st) evs).
Proof.
  intros W chan H api hooks session server_channel client BUF_LEN fuel w0 w1
         Hrun Hclient Hrelay server_ready.
  assert (Hloop :
    forward_loop api hooks session server_channel BUF_LEN (S fuel) w0
    = (server_done <- query (exit_status_ready api server_channel);;
       if server_done then
         status <- call (recv_exit_status api server_channel)
                        (EvRecvExitStatus server_channel);;
         act (send_exit_status api client status)
             (EvSendExitStatus client status);;
         close_session api client
       else
         client_done <- query (exit_status_ready api client);;
         if client_done then
           _ <- call (recv_exit_status api client) (EvRecvExitStatus client);;
           close_session api client
         else
           client_closed <- query (base_closed api client);;
           if client_closed then
             act (close api server_channel) (EvClose server_channel);;
             close_session api client
           else
             server_closed <- query (base_closed api server_channel);;
             if server_closed then close_session api client
             else
               act (sleep api) EvSleep;;
               forward_loop api hooks session server_channel BUF_LEN fuel) w1).
  { cbn [forward_loop]. unfold bind at 1. unfold attr at 1. rewrite Hrun.
    cbn [negb]. rewrite Hclient. unfold bind at 1. now rewrite Hrelay. }
  subst server_ready. split.
  - intros Hready status w2. subst w2 status. rewrite Hloop. split.
    + unfold bind at 1. unfold query at 1.
      destruct (exit_status_ready api server_channel (env w1)) as [r e].
      cbn [fst snd] in *. subst r.
      unfold bind at 1. unfold call at 1. cbn [env self trace].
      destruct (recv_exit_status api server_channel e) as [st e'].
      unfold bind at 1. unfold act at 1. cbn [env self trace fst snd].
      now rewrite <- app_assoc.
    + destruct (close_session_returns api client
        (mkWorld
           (send_exit_status api client
              (fst (recv_exit_status api server_channel
                      (snd (exit_status_ready api server_channel (env w1)))))
              (snd (recv_exit_status api server_channel
                      (snd (exit_status_ready api server_channel (env w1))))))
           (self w1)
           (trace w1 ++
            [EvRecvExitStatus server_channel
               (fst (recv_exit_status api server_channel
                       (snd (exit_status_ready api server_channel (env w1)))));
             EvSendExitStatus client
               (fst (recv_exit_status api server_channel
                       (snd (exit_status_ready api server_channel (env w1)))))])))
        as (w' & evs & Hclose & _).
      now exists w'.
  - intros Hnot client_ready Hready status w2.
    subst w2 status client_ready. rewrite Hloop. split.
    + unfold bind at 1. unfold query at 1.
      destruct (exit_status_ready api server_channel (env w1)) as [r e].
      cbn [fst snd] in *. subst r.
      unfold bind at 1. unfold query at 1. cbn [env self trace].
      destruct (exit_status_ready api client e) as [r e'].
      cbn [fst snd] in *. subst r.
      unfold bind at 1. unfold call at 1. cbn [env self trace].
      destruct (recv_exit_status api client e') as [st e''].
      reflexivity.
    + match goal with
      | |- exists w' evs, close_session api client ?w = _ /\ _ =>
        destruct (close_session_returns api client w)
          as (w' & evs & Hclose & Htrace & _ & Hnone)
      end.
      exists w', evs. split; [exact Hclose|]. split; [|exact Hnone].
      rewrite Htrace. cbn [trace]. now rewrite <- app_assoc.
Qed.

Lemma forward_loop_exit_status_witness :
  let command := b "scp -t /tmp" in
  let start (with_status : bool) :=
    mkWorld
      (mkSim (if with_status then mkSimChannel false false (Some 0) [] [] 4
              else sim_idle 4)
             (if with_status then sim_idle 4
              else mkSimChannel false false (Some 0) [] [] 4)
             true [Client; Server])
      init (@nil (event side)) in
  forward_loop sim_api (SCPForwarder_hooks command) (sim_session command)
    Server 1024 1 (start false)
  = Some (Return tt,
          mkWorld
            (mkSim (mkSimChannel true false None [] [] 4)
                   (mkSimChannel false false (Some 0) [] [] 4) true [Server])
            init
            [EvRecvExitStatus Server 0;
             EvSendExitStatus Client 0;
             EvSendUserMessage Client [add_byte 96%N; add_int 7%N];
             EvSendUserMessage Client
               [add_byte 98%N; add_int 7%N; add_string "eow@openssh.com";
                add_boolean false];
             EvSendUserMessage Client [add_byte 97%N; add_int 7%N];
             EvUnlink Client;
             EvBaseCloseSession Client])
  /\ forward_loop sim_api (SCPForwarder_hooks command) (sim_session command)
       Server 1024 1 (start true)
     = Some (Return tt,
             mkWorld
               (mkSim (mkSimChannel true false (Some 0) [] [] 4) (sim_idle 4)
                      true [Server])
               init
               [EvRecvExitStatus Client 0;
                EvSendUserMessage Client [add_byte 96%N; add_int 7%N];
                EvSendUserMessage Client
                  [add_byte 98%N; add_int 7%N; add_string "eow@openssh.com";
                   add_boolean false];
                EvSendUserMessage Client [add_byte 97%N; add_int 7%N];
                EvUnlink Client;
                EvBaseCloseSession Client]).
Proof.
  intros command start. split.
  - destruct (forward_loop_exit_status Sim side SCPForwarder sim_api
                (SCPForwarder_hooks command) (sim_session command)
                Server Client 1024 0 (start false) (start false)
                eq_refl eq_refl eq_refl) as [Hserver _].
    destruct (Hserver eq_refl) as [Hloop _]. exact Hloop.
  - destruct (forward_loop_exit_status Sim side SCPForwarder sim_api
                (SCPForwarder_hooks command) (sim_session command)
                Server Client 1024 0 (start true) (start true)
                eq_refl eq_refl eq_refl) as [_ Hclient].
    destruct (Hclient eq_refl eq_refl) as [Hloop _]. exact Hloop.
Defined.

(** * Further properties *)

(** ** The state machine of [SCPForwarder] *)

(** What [handle_command] returns, and when it raises. *)
Lemma handle_command_result traffic self :
  let r := fst (handle_command traffic self) in
  (r = Return traffic \/ r = Raise UnicodeDecodeError
   \/ r = Raise too_many_digits)
  /\ (r = Raise UnicodeDecodeError <-> utf8_decode traffic = None)
  /\ (r = Raise too_many_digits
      <-> exists command g1 g2 g3 g4,
            utf8_decode traffic = Some command
            /\ c_command_line command g1 g2 g3 g4
            /\ (4300 < length g3)%nat).
Proof.
  unfold handle_command.
  destruct (utf8_decode traffic) as [command|] eqn:Hdec.
  2:{ cbn. split; [now right; left|]. split; [now split|].
      split; [discriminate|].
      intros (c' & g1 & g2 & g3 & g4 & Heq & _). discriminate. }
  destruct (re_match_c_command command) as [[[[g1 g2] g3] g4]|] eqn:Hm.
  2:{ cbn. split; [now left|]. split; [split; discriminate|].
      split; [discriminate|].
      intros (c' & h1 & h2 & h3 & h4 & Heq & Hline & _).
      inversion Heq; subst c'.
      apply re_match_c_command_complete in Hline. congruence. }
  destruct (int_of_str g3) as [size|e] eqn:Hint; cbn.
  - split; [now left|]. split; [split; discriminate|].
    split; [discriminate|].
    intros (c' & h1 & h2 & h3 & h4 & Heq & Hline & Hlen).
    inversion Heq; subst c'.
    apply re_match_c_command_complete in Hline.
    rewrite Hm in Hline. inversion Hline; subst.
    rewrite (int_of_str_beyond _ Hlen) in Hint. discriminate.
  - destruct (int_of_str_raises _ _ Hint) as [-> Hlen].
    split; [now right; right|]. split; [split; discriminate|].
    split; [|reflexivity]. intros _.
    exists command, g1, g2, g3, g4. split; [reflexivity|].
    split; [now apply re_match_c_command_sound|exact Hlen].
Qed.

(** What [handle_traffic] returns, and when it raises. *)
Lemma handle_traffic_result :
  forall scp_command traffic isclient self,
    let r := fst (handle_traffic scp_command traffic isclient self) in
    let parsing :=
      startswith scp_command (b "scp") = true
      /\ await_response self = false
      /\ bytes_remaining self = 0
      /\ got_c_command self = false in
    (r = Return traffic \/ r = Raise UnicodeDecodeError
     \/ r = Raise too_many_digits)
    /\ (r = Raise UnicodeDecodeError
        <-> parsing /\ utf8_decode traffic = None)
    /\ (r = Raise too_many_digits
        <-> parsing
            /\ exists command g1 g2 g3 g4,
                 utf8_decode traffic = Some command
                 /\ c_command_line command g1 g2 g3 g4
                 /\ (4300 < length g3)%nat).
Proof.
  intros scp_command traffic isclient self r parsing. subst r parsing.
  assert (Hother : forall (P : Prop),
             ~ (startswith scp_command (b "scp") = true
                /\ await_response self = false
                /\ bytes_remaining self = 0
                /\ got_c_command self = false) ->
             (Return traffic = Return traffic
              \/ @Return bytes traffic = Raise UnicodeDecodeError
              \/ @Return bytes traffic = Raise too_many_digits)
             /\ (@Return bytes traffic = Raise UnicodeDecodeError
                 <-> (startswith scp_command (b "scp") = true
                      /\ await_response self = false
                      /\ bytes_remaining self = 0
                      /\ got_c_command self = false)
                     /\ utf8_decode traffic = None)
             /\ (@Return bytes traffic = Raise too_many_digits
                 <-> (startswith scp_command (b "scp") = true
                      /\ await_response self = false
                      /\ bytes_remaining self = 0
                      /\ got_c_command self = false)
                     /\ P)).
  { intros P Hnot. split; [now left|].
    split; (split; [discriminate|intros [Hp _]; contradiction]). }
  unfold handle_traffic.
  destruct (startswith scp_command (b "scp")) eqn:Hscp; cbn [negb].
  2:{ apply Hother. intros (H & _). discriminate. }
  destruct (await_response self) eqn:Hawait.
  { apply Hother. intros (_ & H & _). discriminate. }
  destruct (bytes_remaining self =? 0) eqn:Hrem; cbn [andb].
  2:{ apply Z.eqb_neq in Hrem. apply Hother. intros (_ & _ & H & _).
      contradiction. }
  apply Z.eqb_eq in Hrem.
  destruct (got_c_command self) eqn:Hflag; cbn [negb].
  { apply Hother. intros (_ & _ & _ & H). discriminate. }
  destruct (handle_command_result traffic self) as (Hres & Hdec & Hint).
  split; [exact Hres|]. split.
  - rewrite Hdec. split; [now intros H|now intros [_ H]].
  - rewrite Hint. split; [now intros H|now intros [_ H]].
Qed.

(** X1. [handle_traffic] never alters a chunk: it returns the chunk it was
    given or raises. It raises only while it parses control lines (the
    command begins with scp, no response is awaited, [bytes_remaining] is
    0 and [got_c_command] is clear): [UnicodeDecodeError] exactly when the
    chunk is not valid UTF-8, and the [ValueError] of [int] exactly when
    the chunk decodes to a control line whose size is written with more
    than 4300 digits. *)
Theorem handle_traffic_transparent :
  forall scp_command traffic isclient self,
    let r := fst (handle_traffic scp_command traffic isclient self) in
    let parsing :=
      startswith scp_command (b "scp") = true
      /\ await_response self = false
      /\ bytes_remaining self = 0
      /\ got_c_command self = false in
    (r = Return traffic \/ r = Raise UnicodeDecodeError
     \/ r = Raise too_many_digits)
    /\ (r = Raise UnicodeDecodeError
        <-> parsing /\ utf8_decode traffic = None)
    /\ (r = Raise too_many_digits
        <-> parsing
            /\ exists command g1 g2 g3 g4,
                 utf8_decode traffic = Some command
                 /\ c_command_line command g1 g2 g3 g4
                 /\ (4300 < length g3)%nat).
Proof. exact handle_traffic_result. Qed.

(** The decoder on ASCII bytes. *)
Lemma utf8_decode_ascii data :
  forallb (in_range 0 127) data = true ->
  utf8_decode data = Some (map Byte.to_N data).
Proof.
  induction data as [|x data IH]; intros Hascii; [reflexivity|].
  cbn [forallb] in Hascii. apply andb_prop in Hascii.
  destruct Hascii as [Hx Hdata]. cbn [utf8_decode map].
  rewrite Hx, (IH Hdata). reflexivity.
Qed.

(** The size of a control line is shorter than the line. *)
Lemma c_command_line_size_length command g1 g2 g3 g4 :
  c_command_line command g1 g2 g3 g4 -> (length g3 < length command)%nat.
Proof.
  intros (c & w1 & w2 & rest & -> & _).
  rewrite !length_app. cbn [length]. rewrite !length_app. cbn [length]. lia.
Qed.

(** X2. Chunks of ASCII bytes, none of them longer than 4300 bytes, never
    make the forwarder raise: whatever the command, the state and the
    sides, every chunk of the sequence is returned as it is. *)
Theorem feed_ascii_never_raises :
  forall scp_command chunks self,
    all_ascii chunks = true ->
    Forall (fun c => (length (fst c) <= 4300)%nat) chunks ->
    fst (feed scp_command chunks self)
    = map (fun c => Return (fst c)) chunks.
Proof.
  intros scp_command chunks. induction chunks as [|[traffic isclient] chunks IH];
    intros self Hascii Hshort; [reflexivity|].
  unfold all_ascii in Hascii. cbn [forallb fst] in Hascii.
  apply andb_prop in Hascii. destruct Hascii as [Htraffic Hchunks].
  inversion Hshort as [|? ? Hlen Hshort']; subst. cbn [fst] in Hlen.
  cbn [feed map fst].
  destruct (handle_traffic_result scp_command traffic isclient self)
    as (Hres & Hdecode & Hint).
  destruct (handle_traffic scp_command traffic isclient self) as [r self'].
  cbn [fst] in Hres, Hdecode, Hint.
  specialize (IH self' Hchunks Hshort').
  destruct (feed scp_command chunks self') as [rs self'']. cbn [fst] in *.
  pose proof (utf8_decode_ascii _ Htraffic) as Hdec.
  destruct Hres as [-> | [-> | ->]].
  - now rewrite IH.
  - destruct Hdecode as [Hdecode _].
    destruct (Hdecode eq_refl) as (_ & Hnone). congruence.
  - destruct Hint as [Hint _].
    destruct (Hint eq_refl)
      as (_ & command & g1 & g2 & g3 & g4 & Hsome & Hline & Hbig).
    rewrite Hdec in Hsome. inversion Hsome; subst command.
    apply c_command_line_size_length in Hline.
    rewrite length_map in Hline. lia.
Qed.

Lemma feed_ascii_never_raises_witness :
  fst (feed (b "scp -t /tmp")
         [(bline "C0644 2 a", true); ([x00], false); (b "hi", true)] init)
  = [Return (bline "C0644 2 a"); Return [x00]; Return (b "hi")].
Proof.
  apply (feed_ascii_never_raises (b "scp -t /tmp")
           [(bline "C0644 2 a", true); ([x00], false); (b "hi", true)] init).
  - reflexivity.
  - repeat constructor; cbn; lia.
Defined.

(** X3. [handle_command] takes a chunk for a control line exactly when the
    chunk decodes to one: [got_c_command] is set afterwards if and only if
    the decoded chunk splits into the letter C or D, four octal digits, a
    white-space character, decimal digits, a white-space character, a name
    and a newline. *)
Theorem handle_command_recognizes :
  forall traffic self,
    got_c_command (snd (handle_command traffic self)) = true
    <-> exists command g1 g2 g3 g4,
          utf8_decode traffic = Some command
          /\ c_command_line command g1 g2 g3 g4.
Proof.
  intros traffic self. unfold handle_command.
  destruct (utf8_decode traffic) as [command|] eqn:Hdec.
  - destruct (re_match_c_command command) as [[[[g1 g2] g3] g4]|] eqn:Hm.
    + split.
      * intros _. exists command, g1, g2, g3, g4. split; [reflexivity|].
        now apply re_match_c_command_sound.
      * intros _. destruct (int_of_str g3); reflexivity.
    + split; [discriminate|].
      intros (command' & g1 & g2 & g3 & g4 & Heq & Hline).
      inversion Heq; subst command'.
      apply re_match_c_command_complete in Hline. congruence.
  - split; [discriminate|].
    intros (command' & g1 & g2 & g3 & g4 & Heq & _). discriminate.
Qed.

Lemma fields_wf_init : fields_wf init.
Proof. unfold fields_wf. simpl. repeat split; lia. Qed.

Lemma is_CD_letter c : is_CD c = true -> [c] = u "C" \/ [c] = u "D".
Proof.
  unfold is_CD. intros Hc. apply orb_prop in Hc.
  destruct Hc as [Hc|Hc]; apply N.eqb_eq in Hc; subst c; [now left|now right].
Qed.

Lemma fields_wf_handle_command traffic self :
  fields_wf self -> fields_wf (snd (handle_command traffic self)).
Proof.
  intros Hwf. destruct (handle_command_fields traffic self) as [Heq|Heq].
  - rewrite Heq. exact Hwf.
  - destruct Heq as (command & g1 & g2 & g3 & g4 & _ & Hline & Heq).
    destruct Hline as (c & w1 & w2 & rest & _ & -> & Hc & Hlen & Hoct & _ & _
                       & Hdig & _ & Hdot).
    destruct Heq as [(size & Hint & Heq)|(_ & Heq)]; rewrite Heq.
    + destruct Hwf as (_ & _ & Hwrite & _).
      apply int_of_str_returns in Hint. destruct Hint as [-> _].
      unfold fields_wf. cbn.
      split; [now apply int_of_digits_nonneg|].
      split; [reflexivity|]. split; [exact Hwrite|].
      split; [now apply is_CD_letter|]. now repeat split.
    + destruct Hwf as (Hpos & Hsize & Hwrite & Hfile).
      unfold fields_wf. cbn.
      split; [exact Hpos|]. split; [exact Hsize|]. split; [exact Hwrite|].
      split; [now apply is_CD_letter|]. split; [exact Hlen|].
      split; [exact Hoct|].
      destruct (file_command self), (file_mode self); try contradiction.
      * now destruct Hfile as (_ & _ & _ & Hname).
      * destruct Hfile as (_ & Hname). now rewrite Hname.
Qed.

(** X4. In every state reached through calls of [handle_traffic]:
    [bytes_remaining] is not negative and equals [file_size];
    [bytes_to_write] is 0; and either no file was recorded
    ([file_command] and [file_mode] are [None], the name is empty) or
    [file_command] is C or D, [file_mode] is four octal digits and
    [file_name] holds no newline. *)
Theorem reachable_fields_wf :
  forall scp_command self, reachable scp_command self -> fields_wf self.
Proof.
  intros scp_command self Hreach.
  induction Hreach as [|self traffic isclient Hreach IH].
  - apply fields_wf_init.
  - unfold handle_traffic.
    destruct (negb (startswith scp_command (b "scp"))); [exact IH|].
    destruct (await_response self); [exact IH|].
    destruct ((bytes_remaining self =? 0) && negb (got_c_command self)).
    + now apply fields_wf_handle_command.
    + exact IH.
Qed.

Lemma reachable_fields_wf_witness :
  fields_wf
    (snd (handle_traffic (b "scp -t /tmp") (bline "D0755 0 subdir") true init)).
Proof.
  apply (reachable_fields_wf (b "scp -t /tmp")).
  apply reachable_step, reachable_init.
Defined.

(** X5. After a control line that is parsed with the size 0 and the chunk
    that answers it, the next chunk is handed to [process_data] whatever
    it holds, a control line too, and leaves the fields of the file as
    they are; only the chunk after that one is handed to [handle_command]
    again. *)
Theorem zero_size_line_skips_a_chunk :
  forall scp_command line command g1 g2 g3 g4 self answer ic1 data ic2
         next ic3,
    startswith scp_command (b "scp") = true ->
    utf8_decode line = Some command ->
    c_command_line command g1 g2 g3 g4 ->
    int_of_str g3 = Return 0 ->
    let parsed := snd (handle_command line self) in
    let answered := snd (handle_traffic scp_command answer ic1 parsed) in
    let skipped := snd (handle_traffic scp_command data ic2 answered) in
    handle_traffic scp_command data ic2 answered
    = process_data data (set_got_c_command false answered)
    /\ file_command skipped = Some g1
    /\ file_mode skipped = Some g2
    /\ file_name skipped = g4
    /\ bytes_remaining skipped = 0
    /\ handle_traffic scp_command next ic3 skipped
       = handle_command next skipped.
Proof.
  intros scp_command line command g1 g2 g3 g4 self answer ic1 data ic2
         next ic3 Hscp Hdec Hline Hzero parsed answered skipped.
  pose proof (handle_command_parsed line command g1 g2 g3 g4 0 self
                Hdec Hline Hzero) as Hparsed.
  assert (Hanswered : answered = set_await_response false parsed).
  { subst answered parsed. rewrite Hparsed. cbn [snd].
    rewrite handle_traffic_response; [reflexivity|exact Hscp|reflexivity]. }
  assert (Hdata : handle_traffic scp_command data ic2 answered
                  = process_data data (set_got_c_command false answered)).
  { rewrite Hanswered. subst parsed. rewrite Hparsed. cbn [snd].
    unfold handle_traffic. rewrite Hscp. reflexivity. }
  split; [exact Hdata|].
  subst skipped. rewrite Hdata. unfold process_data. cbn [snd].
  rewrite Hanswered. subst parsed. rewrite Hparsed. cbn [snd].
  repeat split.
  unfold handle_traffic. rewrite Hscp. reflexivity.
Qed.

Lemma zero_size_line_skips_a_chunk_witness :
  let answered :=
    snd (handle_traffic (b "scp -t /tmp") [x00] false
           (snd (handle_command (bline "D0755 0 subdir") init))) in
  handle_traffic (b "scp -t /tmp") (bline "C0644 13 test.txt") true answered
  = process_data (bline "C0644 13 test.txt")
                 (set_got_c_command false answered).
Proof.
  apply (zero_size_line_skips_a_chunk
           (b "scp -t /tmp") (bline "D0755 0 subdir")
           (u "D0755 0 subdir" ++ [chr_newline])
           (u "D") (u "0755") (u "0") (u "subdir") init [x00] false
           (bline "C0644 13 test.txt") true [] true).
  - reflexivity.
  - reflexivity.
  - exists 68%N, 32%N, 32%N, []. repeat split; try reflexivity. discriminate.
  - reflexivity.
Defined.

(** X6. For a command that does not begin with scp the forwarder is a
    pass-through: every chunk of a sequence is returned as it is and the
    fields stay what they were. *)
Theorem feed_other_command_passes_through :
  forall scp_command chunks self,
    startswith scp_command (b "scp") = false ->
    feed scp_command chunks self
    = (map (fun c => Return (fst c)) chunks, self).
Proof.
  intros scp_command chunks self Hscp.
  induction chunks as [|[traffic isclient] chunks IH]; [reflexivity|].
  cbn [feed map fst]. unfold handle_traffic at 1. rewrite Hscp. cbn [negb].
  now rewrite IH.
Qed.

Lemma feed_other_command_passes_through_witness :
  feed (b "rsync --server") [(bline "C0644 13 test.txt", true); ([xff], false)]
    init
  = ([Return (bline "C0644 13 test.txt"); Return [xff]], init).
Proof.
  apply (feed_other_command_passes_through (b "rsync --server")
           [(bline "C0644 13 test.txt", true); ([xff], false)] init).
  reflexivity.
Defined.

(** ** [SCPBaseForwarder.sendall], whatever the primitive *)

Lemma sendall_loop_result {W chan H : Type} (data : bytes)
    (sendfunc : bytes -> run W chan H Z) :
  forall fuel sent w r w',
    sendall_loop fuel data sendfunc sent w = Some (Return r, w') ->
    r = 0 \/ r = Z.of_nat (length data).
Proof.
  induction fuel as [|fuel IH]; intros sent w r w' Hrun; [discriminate|].
  cbn [sendall_loop] in Hrun.
  destruct (sent =? Z.of_nat (length data)) eqn:Hdone.
  - apply Z.eqb_eq in Hdone. inversion Hrun; subst. now right.
  - unfold bind in Hrun.
    destruct (sendfunc (slice_from data sent) w) as [[[n|e] w1]|];
      try discriminate.
    destruct (n =? 0).
    + inversion Hrun. now left.
    + exact (IH _ _ _ _ Hrun).
Qed.

(** X7. Whatever the send primitive does and returns, a call of [sendall]
    that returns gives 0 or the length of the buffer, never the count of
    a part of it. *)
Theorem sendall_result_zero_or_whole :
  forall (W chan H : Type) (api : Paramiko W chan) (channel : chan)
         (data : bytes) (sendfunc : bytes -> run W chan H Z) (fuel : nat)
         (w w' : World W chan H) (r : Z),
    sendall api fuel channel data sendfunc w = Some (Return r, w') ->
    r = 0 \/ r = Z.of_nat (length data).
Proof.
  intros W chan H api channel data sendfunc fuel w w' r Hrun.
  unfold sendall in Hrun. destruct data as [|x data].
  - inversion Hrun. now left.
  - unfold bind, query in Hrun.
    destruct (exit_status_ready api channel (env w)) as [ready e].
    destruct ready.
    + inversion Hrun. now left.
    + exact (sendall_loop_result _ _ _ _ _ _ _ Hrun).
Qed.

Lemma sendall_result_zero_or_whole_witness :
  0 = 0 \/ 0 = Z.of_nat (length (b "0123456789")).
Proof.
  apply (sendall_result_zero_or_whole Sim side unit sim_api Server
           (b "0123456789") (primitive Server false four_then_nothing) 5
           (mkWorld (sim_start 4) tt [])
           (mkWorld (sim_start 4) tt
              [EvSend Server false (b "0123456789") 4;
               EvSend Server false (b "456789") 4;
               EvSend Server false (b "89") 0])).
  reflexivity.
Defined.

Lemma attempts_written rest calls whole :
  attempts rest calls whole ->
  if whole then written calls = Z.of_nat (length rest)
  else 0 <= written calls < Z.of_nat (length rest).
Proof.
  induction 1 as [|rest Hrest|rest n calls whole Hn Hcalls IH].
  - reflexivity.
  - cbn. destruct rest; [congruence|]. cbn [length]. lia.
  - cbn [written fold_right snd]. fold (written calls).
    rewrite length_skipn in IH. destruct whole; lia.
Qed.

(** The loop, started with [sent] bytes written, on a primitive that
    reports no more bytes than it is handed. *)
Lemma sendall_loop_attempts {W chan H : Type} (c : chan) (stderr : bool)
    (prim : bytes -> W -> Z * W) (data : bytes) :
  (forall d e, 0 <= fst (prim d e) <= Z.of_nat (length d)) ->
  forall fuel sent (w : World W chan H),
    0 <= sent <= Z.of_nat (length data) ->
    (length data - Z.to_nat sent < fuel)%nat ->
    exists w' calls (whole : bool),
      sendall_loop fuel data (primitive c stderr prim) sent w
      = Some (Return (if whole then Z.of_nat (length data) else 0), w')
      /\ trace w' = trace w ++ send_events c stderr calls
      /\ self w' = self w
      /\ attempts (skipn (Z.to_nat sent) data) calls whole.
Proof.
  intros Hprim. induction fuel as [|fuel IH]; intros sent w Hsent Hfuel.
  - lia.
  - cbn [sendall_loop].
    destruct (sent =? Z.of_nat (length data)) eqn:Hdone.
    + apply Z.eqb_eq in Hdone. subst sent. exists w, [], true.
      rewrite Nat2Z.id, skipn_all, app_nil_r.
      repeat split. constructor.
    + apply Z.eqb_neq in Hdone.
      rewrite slice_from_skipn by lia.
      set (rest := skipn (Z.to_nat sent) data).
      assert (Hlen : Z.of_nat (length rest) = Z.of_nat (length data) - sent).
      { subst rest. rewrite length_skipn. lia. }
      assert (Hrest : rest <> []).
      { intros Hnil. rewrite Hnil in Hlen. simpl in Hlen. lia. }
      unfold bind, primitive at 1, call.
      pose proof (Hprim rest (env w)) as Hn.
      destruct (prim rest (env w)) as [n e]. cbn [fst] in Hn.
      destruct (n =? 0) eqn:Hzero.
      * apply Z.eqb_eq in Hzero. subst n.
        eexists. exists [(rest, 0)], false.
        split; [reflexivity|]. cbn [trace self].
        repeat split. now constructor.
      * apply Z.eqb_neq in Hzero.
        destruct (IH (sent + n)
                    (mkWorld e (self w) (trace w ++ [EvSend c stderr rest n])))
          as (w' & calls & whole & Hrun & Htrace & Hself & Hcalls);
          [lia|lia|].
        exists w', ((rest, n) :: calls), whole. split; [exact Hrun|].
        split; [|split].
        -- rewrite Htrace. cbn [trace send_events map fst snd].
           now rewrite <- app_assoc.
        -- exact Hself.
        -- constructor; [lia|].
           subst rest. rewrite skipn_skipn.
           replace (Z.to_nat n + Z.to_nat sent)%nat
             with (Z.to_nat (sent + n)) by lia.
           exact Hcalls.
Qed.

(** X8. With a send primitive that reports between 0 bytes and what it is
    handed, [sendall] on a buffer of n bytes returns within n + 1
    iterations of its loop. Either every call wrote at least a byte and
    the result is n, or the calls end with the first one that reports 0
    and the result is 0, although the calls before it have written bytes
    of the buffer. *)
Theorem sendall_outcomes :
  forall (W chan H : Type) (api : Paramiko W chan) (channel : chan)
         (stderr : bool) (prim : bytes -> W -> Z * W) (data : bytes)
         (fuel : nat) (w : World W chan H),
    data <> [] ->
    fst (exit_status_ready api channel (env w)) = false ->
    (forall d e, 0 <= fst (prim d e) <= Z.of_nat (length d)) ->
    (length data < fuel)%nat ->
    exists w' calls (whole : bool),
      sendall api fuel channel data (primitive channel stderr prim) w
      = Some (Return (if whole then Z.of_nat (length data) else 0), w')
      /\ trace w' = trace w ++ send_events channel stderr calls
      /\ self w' = self w
      /\ attempts data calls whole
      /\ (if whole then written calls = Z.of_nat (length data)
          else 0 <= written calls < Z.of_nat (length data)).
Proof.
  intros W chan H api channel stderr prim data fuel w Hdata Hready Hprim Hfuel.
  unfold sendall. destruct data as [|x data]; [congruence|].
  unfold bind, query.
  destruct (exit_status_ready api channel (env w)) as [ready e] eqn:Hq.
  cbn [fst] in Hready. subst ready.
  destruct (sendall_loop_attempts channel stderr prim (x :: data) Hprim fuel 0
              (mkWorld e (self w) (trace w)))
    as (w' & calls & whole & Hrun & Htrace & Hself & Hcalls);
    [lia|simpl in *; lia|].
  exists w', calls, whole. repeat split; try assumption.
  exact (attempts_written _ _ _ Hcalls).
Qed.

Lemma four_then_nothing_bounded d e :
  0 <= fst (four_then_nothing d e) <= Z.of_nat (length d).
Proof.
  unfold four_then_nothing. cbn [fst].
  destruct (4 <? length d)%nat eqn:Hd; [apply Nat.ltb_lt in Hd|]; lia.
Qed.

Lemma sendall_outcomes_witness :
  exists w' calls (whole : bool),
    sendall sim_api 11 Server (b "0123456789")
      (primitive Server false four_then_nothing) (mkWorld (sim_start 4) tt [])
    = Some (Return (if whole then Z.of_nat (length (b "0123456789")) else 0),
            w')
    /\ trace w' = [] ++ send_events Server false calls
    /\ self w' = tt
    /\ attempts (b "0123456789") calls whole
    /\ (if whole then written calls = Z.of_nat (length (b "0123456789"))
        else 0 <= written calls < Z.of_nat (length (b "0123456789"))).
Proof.
  apply (sendall_outcomes Sim side unit sim_api Server false four_then_nothing
           (b "0123456789") 11 (mkWorld (sim_start 4) tt [])).
  - discriminate.
  - reflexivity.
  - apply four_then_nothing_bounded.
  - simpl. lia.
Defined.

(** X9. [sendall] does not call the send primitive, whatever it is, when
    the buffer is empty or the channel reports an exit status: it returns 0
    and the buffer is dropped. *)
Theorem sendall_makes_no_call :
  forall (W chan H : Type) (api : Paramiko W chan) (channel : chan)
         (data : bytes) (sendfunc : bytes -> run W chan H Z) (fuel : nat)
         (w : World W chan H),
    data = [] \/ fst (exit_status_ready api channel (env w)) = true ->
    exists e,
      sendall api fuel channel data sendfunc w
      = Some (Return 0, mkWorld e (self w) (trace w))
      /\ (data = [] -> e = env w).
Proof.
  intros W chan H api channel data sendfunc fuel w Hcase.
  unfold sendall. destruct data as [|x data].
  - exists (env w). destruct w. now split.
  - destruct Hcase as [Hnil|Hready]; [discriminate|].
    unfold bind, query.
    destruct (exit_status_ready api channel (env w)) as [ready e].
    cbn [fst] in Hready. subst ready.
    exists e. split; [reflexivity|discriminate].
Qed.

Lemma sendall_makes_no_call_witness :
  exists e,
    sendall sim_api 0 Server (b "0123456789") (chan_send sim_api Server)
      (mkWorld
         (mkSim (sim_idle 4) (mkSimChannel false false (Some 0) [] [] 4)
                true [Client; Server]) tt [])
    = Some (Return 0, mkWorld e tt [])
    /\ (b "0123456789" = [] ->
        e = mkSim (sim_idle 4) (mkSimChannel false false (Some 0) [] [] 4)
                  true [Client; Server]).
Proof.
  apply (sendall_makes_no_call Sim side unit sim_api Server (b "0123456789")
           (chan_send sim_api Server) 0
           (mkWorld
              (mkSim (sim_idle 4) (mkSimChannel false false (Some 0) [] [] 4)
                     true [Client; Server]) tt [])).
  right. reflexivity.
Defined.

(** ** The calls a piece of the relay adds *)

Lemma extends_refl {W chan H : Type} (P : event chan -> Prop)
    (w : World W chan H) : extends P w w.
Proof. exists []. now rewrite app_nil_r. Qed.

Lemma extends_trans {W chan H : Type} (P : event chan -> Prop)
    (w1 w2 w3 : World W chan H) :
  extends P w1 w2 -> extends P w2 w3 -> extends P w1 w3.
Proof.
  intros (evs1 & H1 & HP1) (evs2 & H2 & HP2). exists (evs1 ++ evs2).
  split; [now rewrite H2, H1, app_assoc|]. now apply Forall_app.
Qed.

Lemma extends_same_trace {W chan H : Type} (P : event chan -> Prop)
    (w w' : World W chan H) : trace w' = trace w -> extends P w w'.
Proof. intros Heq. exists []. now rewrite app_nil_r. Qed.

Lemma extends_one {W chan H : Type} (P : event chan -> Prop)
    (w w' : World W chan H) ev :
  trace w' = trace w ++ [ev] -> P ev -> extends P w w'.
Proof. intros Heq Hev. exists [ev]. split; [exact Heq|]. now constructor. Qed.

Section Emits.
Context {W chan H : Type}.
Variable P : event chan -> Prop.

Lemma emits_ret {A} (a : A) : emits P (@ret W chan H A a).
Proof. intros w r w' Hrun. inversion Hrun; subst. apply extends_refl. Qed.

Lemma emits_raise {A} e : emits P (@raise W chan H A e).
Proof. intros w r w' Hrun. inversion Hrun; subst. apply extends_refl. Qed.

Lemma emits_out_of_fuel {A} : emits P (@out_of_fuel W chan H A).
Proof. intros w r w' Hrun. discriminate. Qed.

Lemma emits_bind {A B} (m : run W chan H A) (k : A -> run W chan H B) :
  emits P m -> (forall a, emits P (k a)) -> emits P (bind m k).
Proof.
  intros Hm Hk w r w' Hrun. unfold bind in Hrun.
  destruct (m w) as [[[a|e] w1]|] eqn:Hmw; try discriminate.
  - exact (extends_trans _ _ _ _ (Hm _ _ _ Hmw) (Hk a _ _ _ Hrun)).
  - inversion Hrun; subst. exact (Hm _ _ _ Hmw).
Qed.

Lemma emits_when (c : bool) (m : run W chan H unit) :
  emits P m -> emits P (when c m).
Proof. intros Hm. destruct c; [exact Hm|apply emits_ret]. Qed.

Lemma emits_attr {A} (f : W -> A) : emits P (@attr W chan H A f).
Proof. intros w r w' Hrun. inversion Hrun; subst. apply extends_refl. Qed.

Lemma emits_query {A} (f : W -> A * W) : emits P (@query W chan H A f).
Proof.
  intros w r w' Hrun. unfold query in Hrun. destruct (f (env w)) as [a e].
  inversion Hrun; subst. now apply extends_same_trace.
Qed.

Lemma emits_hook {A} (f : H -> result A * H) : emits P (@hook W chan H A f).
Proof.
  intros w r w' Hrun. unfold hook in Hrun. destruct (f (self w)) as [a h].
  inversion Hrun; subst. now apply extends_same_trace.
Qed.

Lemma emits_call {A} (f : W -> A * W) (ev : A -> event chan) :
  (forall a, P (ev a)) -> emits P (@call W chan H A f ev).
Proof.
  intros Hev w r w' Hrun. unfold call in Hrun. destruct (f (env w)) as [a e].
  inversion Hrun; subst. now apply (extends_one _ _ _ (ev a)).
Qed.

Lemma emits_act (f : W -> W) (ev : event chan) :
  P ev -> emits P (@act W chan H f ev).
Proof.
  intros Hev w r w' Hrun. inversion Hrun; subst.
  now apply (extends_one _ _ _ ev).
Qed.

Lemma emits_sendall_loop (c : chan) (stderr : bool)
    (prim : bytes -> W -> Z * W) (data : bytes) :
  (forall d n, P (EvSend c stderr d n)) ->
  forall fuel sent,
    emits P (sendall_loop (H := H) fuel data (primitive c stderr prim) sent).
Proof.
  intros Hev. induction fuel as [|fuel IH]; intros sent.
  - apply emits_out_of_fuel.
  - cbn [sendall_loop].
    destruct (sent =? Z.of_nat (length data)); [apply emits_ret|].
    apply emits_bind; [apply emits_call; intros n; apply Hev|].
    intros n. destruct (n =? 0); [apply emits_ret|apply IH].
Qed.

Lemma emits_sendall (api : Paramiko W chan) (c : chan) (stderr : bool)
    (prim : bytes -> W -> Z * W) (data : bytes) (fuel : nat) :
  (forall d n, P (EvSend c stderr d n)) ->
  emits P (sendall (H := H) api fuel c data (primitive c stderr prim)).
Proof.
  intros Hev. unfold sendall. destruct data as [|x data]; [apply emits_ret|].
  apply emits_bind; [apply emits_query|].
  intros ready. destruct ready; [apply emits_ret|].
  now apply emits_sendall_loop.
Qed.

Lemma emits_relay (api : Paramiko W chan) (BUF_LEN : N) (fuel : nat)
    (src dst : chan) (stderr : bool)
    (handle : bytes -> H -> result bytes * H) :
  (forall data, P (EvRecv src stderr data)) ->
  (forall d n, P (EvSend dst stderr d n)) ->
  emits P (relay api BUF_LEN fuel src dst stderr handle).
Proof.
  intros Hrecv Hsend. unfold relay.
  apply emits_bind; [apply emits_query|]. intros ready.
  apply emits_when.
  apply emits_bind; [apply emits_call; exact Hrecv|]. intros buf.
  apply emits_bind; [apply emits_hook|]. intros buf'.
  apply emits_bind; [|intros; apply emits_ret].
  destruct stderr; now apply emits_sendall.
Qed.

Lemma emits_close_session (api : Paramiko W chan) (c : chan) :
  (forall m, P (EvSendUserMessage c m)) ->
  P (EvUnlink c) -> P (EvBaseCloseSession c) ->
  emits P (close_session (H := H) api c).
Proof.
  intros Hmsg Hunlink Hbase. unfold close_session.
  apply emits_bind; [apply emits_attr|]. intros is_closed.
  destruct is_closed; [apply emits_ret|].
  apply emits_bind; [apply emits_attr|]. intros eof.
  apply emits_bind.
  { apply emits_when. apply emits_bind; [|intros _]; apply emits_act, Hmsg. }
  intros _. apply emits_bind; [apply emits_act, Hmsg|]. intros _.
  apply emits_bind; [now apply emits_act|]. intros _. now apply emits_act.
Qed.

End Emits.

(** ** [SCPBaseForwarder.close_session], what it leaves *)

(** What a call of [close_session] leaves. *)
Lemma close_session_post :
  forall (W chan H : Type) (api : Paramiko W chan) (channel : chan)
         (w : World W chan H),
    (forall e, closed api channel (unlink api channel e) = true) ->
    (forall e, closed api channel e = true ->
               closed api channel (base_close_session api channel e) = true) ->
    exists w',
      close_session api channel w = Some (Return tt, w')
      /\ closed api channel (env w') = true
      /\ self w' = self w
      /\ extends (teardown_event channel) w w'.
Proof.
  intros W chan H api channel w Hunlink Hbase.
  destruct (close_session_returns api channel w)
    as (w' & evs & Hrun & _ & Hself & _).
  exists w'. split; [exact Hrun|]. split; [|split; [exact Hself|]].
  - destruct (closed api channel (env w)) eqn:Hclosed.
    + rewrite (close_session_closed _ _ _ Hclosed) in Hrun.
      inversion Hrun; subst. exact Hclosed.
    + destruct (close_session_open api channel w Hclosed)
        as (e & evs' & Hrun' & -> & _).
      rewrite Hrun' in Hrun. inversion Hrun; subst. cbn [env].
      apply Hbase, Hunlink.
  - refine (emits_close_session (teardown_event channel) api channel _ _ _
              w (Return tt) w' Hrun); intros; reflexivity.
Qed.

(** X10. When unlinking a channel marks it closed and the [close_session]
    of the base class leaves a closed channel closed, [close_session]
    always returns and the channel is closed afterwards; the calls it
    adds are on that channel and among [_send_user_message], [_unlink]
    and the [close_session] of the base class; the fields of the
    forwarder are what they were. *)
Theorem close_session_leaves_closed :
  forall (W chan H : Type) (api : Paramiko W chan) (channel : chan)
         (w : World W chan H),
    (forall e, closed api channel (unlink api channel e) = true) ->
    (forall e, closed api channel e = true ->
               closed api channel (base_close_session api channel e) = true) ->
    exists w',
      close_session api channel w = Some (Return tt, w')
      /\ closed api channel (env w') = true
      /\ self w' = self w
      /\ extends (teardown_event channel) w w'.
Proof. exact close_session_post. Qed.

Lemma close_session_leaves_closed_witness :
  exists w',
    close_session sim_api Client (mkWorld (sim_start 4) tt []) = Some (Return tt, w')
    /\ closed sim_api Client (env w') = true
    /\ self w' = tt
    /\ extends (teardown_event Client) (mkWorld (sim_start 4) tt []) w'.
Proof.
  apply (close_session_leaves_closed Sim side unit sim_api Client
           (mkWorld (sim_start 4) tt [])).
  - apply sim_unlink_closes.
  - apply sim_base_close_session_closed.
Defined.

(** ** The loop of [forward], as a whole *)

Lemma bind_returns {W chan H A B : Type} (m : run W chan H A)
    (k : A -> run W chan H B) w b w' :
  bind m k w = Some (Return b, w') ->
  exists a w1, m w = Some (Return a, w1) /\ k a w1 = Some (Return b, w').
Proof.
  unfold bind. destruct (m w) as [[[a|e] w1]|]; try discriminate.
  intros Hk. now exists a, w1.
Qed.

Lemma bind_query {W chan H A B : Type} (f : W -> A * W)
    (k : A -> run W chan H B) w :
  bind (query f) k w
  = k (fst (f (env w))) (mkWorld (snd (f (env w))) (self w) (trace w)).
Proof. unfold bind, query. now destruct (f (env w)). Qed.

Lemma bind_call {W chan H A B : Type} (f : W -> A * W) (ev : A -> event chan)
    (k : A -> run W chan H B) w :
  bind (call f ev) k w
  = k (fst (f (env w)))
      (mkWorld (snd (f (env w))) (self w) (trace w ++ [ev (fst (f (env w)))])).
Proof. unfold bind, call. now destruct (f (env w)). Qed.

Lemma bind_act {W chan H B : Type} (f : W -> W) (ev : event chan)
    (k : unit -> run W chan H B) w :
  bind (act f ev) k w
  = k tt (mkWorld (f (env w)) (self w) (trace w ++ [ev])).
Proof. reflexivity. Qed.

(** The channel is closed after [close_session]. *)
Lemma close_session_closed_after {W chan H : Type} (api : Paramiko W chan)
    (channel : chan) (w w' : World W chan H) r :
  (forall e, closed api channel (unlink api channel e) = true) ->
  (forall e, closed api channel e = true ->
             closed api channel (base_close_session api channel e) = true) ->
  close_session api channel w = Some (r, w') ->
  closed api channel (env w') = true.
Proof.
  intros Hunlink Hbase Hrun.
  destruct (close_session_post W chan H api channel w Hunlink Hbase)
    as (w'' & Hrun' & Hclosed & _).
  rewrite Hrun' in Hrun. now inversion Hrun; subst.
Qed.

(** X11. When unlinking a channel marks it closed and the [close_session]
    of the base class leaves a closed channel closed: a loop of [forward]
    that returns has either found [session.running] false, and then that
    is what it is on return, or has closed the client-side channel. *)
Theorem forward_loop_ends_closed :
  forall (W chan H : Type) (api : Paramiko W chan) (hooks : Hooks H)
         (session : Session chan) (server_channel : chan) (BUF_LEN : N)
         (fuel : nat) (w w' : World W chan H),
    (forall c e, closed api c (unlink api c e) = true) ->
    (forall c e, closed api c e = true ->
                 closed api c (base_close_session api c e) = true) ->
    forward_loop api hooks session server_channel BUF_LEN fuel w
    = Some (Return tt, w') ->
    running api (env w') = false
    \/ exists client,
         scp_channel session = Some client
         /\ closed api client (env w') = true.
Proof.
  intros W chan H api hooks session server_channel BUF_LEN fuel w w'
         Hunlink Hbase.
  revert w. induction fuel as [|fuel IH]; intros w Hrun; [discriminate|].
  cbn [forward_loop] in Hrun.
  unfold bind at 1, attr at 1 in Hrun.
  destruct (running api (env w)) eqn:Hgo; cbn [negb] in Hrun.
  2:{ inversion Hrun; subst. now left. }
  destruct (scp_channel session) as [client|] eqn:Hclient; [|discriminate].
  assert (Hclose : forall w0 r,
             close_session api client w0 = Some (r, w') ->
             running api (env w') = false
             \/ exists client0,
                  Some client = Some client0
                  /\ closed api client0 (env w') = true).
  { intros w0 r Hc. right. exists client. split; [reflexivity|].
    exact (close_session_closed_after api client w0 w' r
             (Hunlink client) (Hbase client) Hc). }
  apply bind_returns in Hrun. destruct Hrun as (_ & w1 & _ & Hrun).
  rewrite bind_query in Hrun.
  destruct (fst (exit_status_ready api server_channel (env w1))).
  { rewrite bind_call, bind_act in Hrun. exact (Hclose _ _ Hrun). }
  rewrite bind_query in Hrun. cbn [env self trace] in Hrun.
  match type of Hrun with
  | (if ?c then _ else _) _ = _ => destruct c
  end.
  { rewrite bind_call in Hrun. exact (Hclose _ _ Hrun). }
  rewrite bind_query in Hrun. cbn [env self trace] in Hrun.
  match type of Hrun with
  | (if ?c then _ else _) _ = _ => destruct c
  end.
  { rewrite bind_act in Hrun. exact (Hclose _ _ Hrun). }
  rewrite bind_query in Hrun. cbn [env self trace] in Hrun.
  match type of Hrun with
  | (if ?c then _ else _) _ = _ => destruct c
  end.
  { exact (Hclose _ _ Hrun). }
  rewrite bind_act in Hrun.
  destruct (IH _ Hrun) as [Hstop|(client0 & Hsome & Hclosed)].
  - now left.
  - right. now exists client0.
Qed.

Lemma forward_loop_ends_closed_witness :
  let command := b "scp -t /tmp" in
  let start :=
    mkWorld
      (mkSim (sim_idle 4) (mkSimChannel false false (Some 0) [] [] 4) true
             [Client; Server])
      init (@nil (event side)) in
  let finish :=
    mkWorld
      (mkSim (mkSimChannel true false None [] [] 4)
             (mkSimChannel false false (Some 0) [] [] 4) true [Server])
      init
      [EvRecvExitStatus Server 0;
       EvSendExitStatus Client 0;
       EvSendUserMessage Client [add_byte 96%N; add_int 7%N];
       EvSendUserMessage Client
         [add_byte 98%N; add_int 7%N; add_string "eow@openssh.com";
          add_boolean false];
       EvSendUserMessage Client [add_byte 97%N; add_int 7%N];
       EvUnlink Client;
       EvBaseCloseSession Client] in
  running sim_api (env finish) = false
  \/ exists client,
       scp_channel (sim_session command) = Some client
       /\ closed sim_api client (env finish) = true.
Proof.
  intros command start finish.
  apply (forward_loop_ends_closed Sim side SCPForwarder sim_api
           (SCPForwarder_hooks command) (sim_session command) Server 1024 1
           start finish).
  - apply sim_unlink_closes.
  - apply sim_base_close_session_closed.
  - reflexivity.
Defined.

Lemma emits_forward_loop {W chan H : Type} (api : Paramiko W chan)
    (hooks : Hooks H) (session : Session chan) (server_channel client : chan)
    (BUF_LEN : N) :
  scp_channel session = Some client ->
  forall fuel,
    emits (loop_event client server_channel)
          (forward_loop api hooks session server_channel BUF_LEN fuel).
Proof.
  intros Hclient.
  assert (Hclose : emits (loop_event client server_channel)
                         (close_session (H := H) api client)).
  { apply emits_close_session; intros; reflexivity. }
  induction fuel as [|fuel IH]; [apply emits_out_of_fuel|].
  cbn [forward_loop].
  apply emits_bind; [apply emits_attr|]. intros go.
  destruct (negb go); [apply emits_ret|]. rewrite Hclient.
  apply emits_bind.
  { unfold relay_all.
    repeat (apply emits_bind; [|intros _]);
      apply emits_relay; intros; cbn; auto. }
  intros _. apply emits_bind; [apply emits_query|]. intros server_done.
  destruct server_done.
  { apply emits_bind; [apply emits_call; intros; cbn; auto|]. intros status.
    apply emits_bind; [apply emits_act; reflexivity|]. intros _. exact Hclose. }
  apply emits_bind; [apply emits_query|]. intros client_done.
  destruct client_done.
  { apply emits_bind; [apply emits_call; intros; cbn; auto|]. intros _.
    exact Hclose. }
  apply emits_bind; [apply emits_query|]. intros client_closed.
  destruct client_closed.
  { apply emits_bind; [apply emits_act; reflexivity|]. intros _. exact Hclose. }
  apply emits_bind; [apply emits_query|]. intros server_closed.
  destruct server_closed; [exact Hclose|].
  apply emits_bind; [apply emits_act; exact I|]. intros _. exact IH.
Qed.

(** X12. Whatever the channels do, when the loop of [forward] ends, by
    returning or by raising, the calls it has made are these: data is received from and sent to the two channels only; an
    exit status is only ever sent to the client-side channel; the messages
    of the teardown, [_unlink] and the [close_session] of the base class
    are for the client-side channel only; [close] is called on the
    server-side channel only; no command is executed and no terminal is
    requested. *)
Theorem forward_loop_calls :
  forall (W chan H : Type) (api : Paramiko W chan) (hooks : Hooks H)
         (session : Session chan) (server_channel client : chan)
         (BUF_LEN : N) (fuel : nat) (w w' : World W chan H)
         (r : result unit),
    scp_channel session = Some client ->
    forward_loop api hooks session server_channel BUF_LEN fuel w
    = Some (r, w') ->
    exists evs,
      trace w' = trace w ++ evs
      /\ Forall (loop_event client server_channel) evs.
Proof.
  intros W chan H api hooks session server_channel client BUF_LEN fuel w w' r
         Hclient Hrun.
  exact (emits_forward_loop api hooks session server_channel client BUF_LEN
           Hclient fuel w r w' Hrun).
Qed.

Lemma forward_loop_calls_witness :
  let command := b "scp -t /tmp" in
  let start :=
    mkWorld
      (mkSim (mkSimChannel false false (Some 0) (b "hello") [] 4)
             (mkSimChannel false false None [] [] 3) true [Client; Server])
      init (@nil (event side)) in
  let finish :=
    mkWorld
      (mkSim (mkSimChannel true false (Some 0) [] [] 4)
             (mkSimChannel false false None [] [] 3) true [Server])
      init
      [EvRecv Client false (b "hello");
       EvSend Server false (b "hello") 3;
       EvSend Server false (b "lo") 2;
       EvRecvExitStatus Client 0;
       EvSendUserMessage Client [add_byte 96%N; add_int 7%N];
       EvSendUserMessage Client
         [add_byte 98%N; add_int 7%N; add_string "eow@openssh.com";
          add_boolean false];
       EvSendUserMessage Client [add_byte 97%N; add_int 7%N];
       EvUnlink Client;
       EvBaseCloseSession Client] in
  exists evs,
    trace finish = trace start ++ evs
    /\ Forall (loop_event Client Server) evs.
Proof.
  intros command start finish.
  apply (forward_loop_calls Sim side SCPForwarder sim_api
           (SCPForwarder_hooks command) (sim_session command) Server Client
           1024 4 start finish (Return tt)).
  - reflexivity.
  - reflexivity.
Defined.

(** ** One relay step *)

(** X13. A relay step that finds data to read, whose hook returns the data
    as it is (as the hooks of [SCPBaseForwarder] do, and those of
    [SCPForwarder] whenever they return), whose destination reports no
    exit status and takes at least a byte a call, sends all that it has
    read: the calls to the send primitive of the destination are on what
    is still unsent of the data, until nothing is. *)
Theorem relay_forwards_what_it_reads :
  forall (W chan H : Type) (api : Paramiko W chan) (BUF_LEN : N)
         (fuel : nat) (src dst : chan) (stderr : bool)
         (handle : bytes -> H -> result bytes * H) (w : World W chan H),
    let ready :=
      (if stderr then recv_stderr_ready else recv_ready) api src (env w) in
    let got :=
      (if stderr then recv_stderr else recv) api src BUF_LEN (snd ready) in
    let data := fst got in
    let handled := handle data (self w) in
    fst ready = true ->
    fst handled = Return data ->
    data <> [] ->
    fst (exit_status_ready api dst (snd got)) = false ->
    (forall d e,
        d <> [] ->
        0 < fst ((if stderr then send_stderr else send) api dst d e)
        <= Z.of_nat (length d)) ->
    (length data < fuel)%nat ->
    exists w' calls,
      relay api BUF_LEN fuel src dst stderr handle w = Some (Return tt, w')
      /\ trace w'
         = trace w ++ EvRecv src stderr data :: send_events dst stderr calls
      /\ successive data calls
      /\ self w' = snd handled.
Proof.
  intros W chan H api BUF_LEN fuel src dst stderr handle w ready got data
         handled Hready Hhandled Hdata Hstatus Hprim Hfuel.
  subst handled data got ready. unfold relay. rewrite bind_query.
  destruct stderr; rewrite Hready; unfold when; rewrite bind_call;
    unfold bind at 1, hook at 1; cbn [env self trace];
    match goal with
    | |- context [handle ?d (self w)] =>
      destruct (handle d (self w)) as [r h] eqn:Hh
    end;
    cbn [fst snd] in *; subst r;
    match goal with
    | |- context [sendall api fuel dst ?d _] =>
      destruct d as [|x data] eqn:Hd; [congruence|]
    end;
    unfold bind at 1; unfold sendall; rewrite bind_query;
    cbn [env self trace]; rewrite Hstatus.
  - match goal with
    | |- context [sendall_loop fuel _ _ 0 ?w0] =>
      destruct (sendall_loop_whole dst true (send_stderr api dst) (x :: data)
                  Hprim fuel 0 w0)
        as (w' & calls & Hrun & Htrace & Hself & Hcalls);
        [lia|simpl in *; lia|]
    end.
    unfold chan_send_stderr. rewrite Hrun.
    exists w', calls. split; [reflexivity|].
    split; [|split; [exact Hcalls|exact Hself]].
    rewrite Htrace. cbn [trace]. now rewrite <- app_assoc.
  - match goal with
    | |- context [sendall_loop fuel _ _ 0 ?w0] =>
      destruct (sendall_loop_whole dst false (send api dst) (x :: data)
                  Hprim fuel 0 w0)
        as (w' & calls & Hrun & Htrace & Hself & Hcalls);
        [lia|simpl in *; lia|]
    end.
    unfold chan_send. rewrite Hrun.
    exists w', calls. split; [reflexivity|].
    split; [|split; [exact Hcalls|exact Hself]].
    rewrite Htrace. cbn [trace]. now rewrite <- app_assoc.
Qed.

Lemma relay_forwards_what_it_reads_witness :
  exists w' calls,
    relay sim_api_two 1024 6 Client Server false
      (fun buf =>
         hook_handle_traffic (SCPForwarder_hooks (b "scp -t /tmp")) buf true)
      (mkWorld
         (mkSim (mkSimChannel false false None (b "hello") [] 4) (sim_idle 4)
                true [Client; Server])
         init [])
    = Some (Return tt, w')
    /\ trace w'
       = [] ++ EvRecv Client false (b "hello")
            :: send_events Server false calls
    /\ successive (b "hello") calls
    /\ self w' = init.
Proof.
  apply (relay_forwards_what_it_reads Sim side SCPForwarder sim_api_two 1024 6
           Client Server false
           (fun buf =>
         hook_handle_traffic (SCPForwarder_hooks (b "scp -t /tmp")) buf true)
           (mkWorld
              (mkSim (mkSimChannel false false None (b "hello") [] 4)
                     (sim_idle 4) true [Client; Server])
              init [])).
  - reflexivity.
  - reflexivity.
  - discriminate.
  - reflexivity.
  - intros d e Hd. destruct d as [|x d]; [congruence|].
    cbn [sim_api_two send at_most_two fst length]. lia.
  - simpl. lia.
Defined.

(** X14. A relay step that has read data sends none of it when the hook
    returns an empty buffer or the destination reports an exit status, and
    none when the hook raises: the data is read from the source, the send
    primitive is not called, and the step returns, or raises what the hook
    has raised. *)
Theorem relay_drops_what_it_cannot_send :
  forall (W chan H : Type) (api : Paramiko W chan) (BUF_LEN : N)
         (fuel : nat) (src dst : chan) (stderr : bool)
         (handle : bytes -> H -> result bytes * H) (w : World W chan H),
    let ready :=
      (if stderr then recv_stderr_ready else recv_ready) api src (env w) in
    let got :=
      (if stderr then recv_stderr else recv) api src BUF_LEN (snd ready) in
    let handled := handle (fst got) (self w) in
    fst ready = true ->
    (forall buf,
        fst handled = Return buf ->
        buf = [] \/ fst (exit_status_ready api dst (snd got)) = true ->
        exists e,
          relay api BUF_LEN fuel src dst stderr handle w
          = Some (Return tt,
                  mkWorld e (snd handled)
                          (trace w ++ [EvRecv src stderr (fst got)])))
    /\ (forall e,
           fst handled = Raise e ->
           relay api BUF_LEN fuel src dst stderr handle w
           = Some (Raise e,
                   mkWorld (snd got) (snd handled)
                           (trace w ++ [EvRecv src stderr (fst got)]))).
Proof.
  intros W chan H api BUF_LEN fuel src dst stderr handle w ready got handled
         Hready.
  subst handled got ready. split.
  - intros buf Hbuf Hcase. unfold relay. rewrite bind_query.
    destruct stderr; rewrite Hready; unfold when; rewrite bind_call;
      unfold bind at 1, hook at 1; cbn [env self trace];
      match goal with
      | |- context [handle ?d (self w)] =>
        destruct (handle d (self w)) as [r h] eqn:Hh
      end;
      cbn [fst snd] in *; subst r;
      unfold bind at 1; unfold sendall;
      (destruct buf as [|x buf]; [eexists; reflexivity|]);
      (destruct Hcase as [Hnil|Hstatus]; [discriminate|]);
      rewrite bind_query; cbn [env self trace]; rewrite Hstatus;
      eexists; reflexivity.
  - intros e He. unfold relay. rewrite bind_query.
    destruct stderr; rewrite Hready; unfold when; rewrite bind_call;
      unfold bind at 1, hook at 1; cbn [env self trace];
      match goal with
      | |- context [handle ?d (self w)] =>
        destruct (handle d (self w)) as [r h] eqn:Hh
      end;
      cbn [fst snd] in *; subst r; reflexivity.
Qed.

Lemma relay_drops_what_it_cannot_send_witness :
  exists e,
    relay sim_api 1024 0 Client Server false
      (fun buf =>
         hook_handle_traffic (SCPForwarder_hooks (b "scp -t /tmp")) buf true)
      (mkWorld
         (mkSim (mkSimChannel false false None (bline "C0644 5 a") [] 4)
                (mkSimChannel false false (Some 0) [] [] 4)
                true [Client; Server])
         init [])
    = Some (Return tt,
            mkWorld e
              {| await_response := true;
                 bytes_remaining := 5;
                 bytes_to_write := 0;
                 file_command := Some (u "C");
                 file_mode := Some (u "0644");
                 file_size := 5;
                 file_name := u "a";
                 got_c_command := true |}
              ([] ++ [EvRecv Client false (bline "C0644 5 a")])).
Proof.
  destruct (relay_drops_what_it_cannot_send Sim side SCPForwarder sim_api
              1024 0 Client Server false
              (fun buf =>
                 hook_handle_traffic (SCPForwarder_hooks (b "scp -t /tmp"))
                                     buf true)
              (mkWorld
                 (mkSim (mkSimChannel false false None (bline "C0644 5 a") [] 4)
                        (mkSimChannel false false (Some 0) [] [] 4)
                        true [Client; Server])
                 init [])
              eq_refl) as [Hdrop _].
  apply (Hdrop (bline "C0644 5 a") eq_refl). right. reflexivity.
Defined.

(** ** The wait of a remote to remote copy *)




(** ** The command of the session *)

Lemma to_N_inj x y : Byte.to_N x = Byte.to_N y -> x = y.
Proof.
  intros Heq. pose proof (Byte.of_to_N x) as Hx.
  rewrite Heq, Byte.of_to_N in Hx. now inversion Hx.
Qed.

Lemma byte_eqb_to_N x y : Byte.eqb x y = N.eqb (Byte.to_N x) (Byte.to_N y).
Proof.
  destruct (N.eqb (Byte.to_N x) (Byte.to_N y)) eqn:Hn.
  - apply N.eqb_eq, to_N_inj in Hn. now apply Byte.byte_dec_lb.
  - destruct (Byte.eqb x y) eqn:Hb; [|reflexivity].
    apply Byte.byte_dec_bl in Hb. subst y. now rewrite N.eqb_refl in Hn.
Qed.

Ltac range_to_prop :=
  unfold lead3, lead4, is_cont, payload, in_range in *; bool_to_prop.

Ltac solve_code_point :=
  zify; Z.to_euclidean_division_equations; lia.

(** The first code point of a decoded buffer: the first byte when it is
    ASCII, and a code point that is not ASCII otherwise. *)
Lemma utf8_decode_cons x r s :
  utf8_decode (x :: r) = Some s ->
  exists cp s',
    s = cp :: s'
    /\ if in_range 0 127 x
       then cp = Byte.to_N x /\ utf8_decode r = Some s'
       else (128 <= cp)%N.
Proof.
  cbn [utf8_decode].
  destruct (in_range 0 127 x) eqn:Hascii.
  { destruct (utf8_decode r) as [s'|]; [|discriminate].
    intros Heq. inversion Heq. now exists (Byte.to_N x), s'. }
  destruct r as [|b1 r1]; [discriminate|].
  destruct (in_range 194 223 x && is_cont b1) eqn:H2.
  { destruct (utf8_decode r1) as [s'|]; [|discriminate].
    intros Heq. inversion Heq. eexists. exists s'. split; [reflexivity|].
    clear Heq. range_to_prop. solve_code_point. }
  destruct r1 as [|b2 r2]; [discriminate|].
  destruct (lead3 x b1 && is_cont b2) eqn:H3.
  { destruct (utf8_decode r2) as [s'|]; [|discriminate].
    intros Heq. inversion Heq. eexists. exists s'. split; [reflexivity|].
    clear Heq H2. range_to_prop; solve_code_point. }
  destruct r2 as [|b3 r3]; [discriminate|].
  destruct (lead4 x b1 && is_cont b2 && is_cont b3) eqn:H4; [|discriminate].
  destruct (utf8_decode r3) as [s'|]; [|discriminate].
  intros Heq. inversion Heq. eexists. exists s'. split; [reflexivity|].
  clear Heq H2 H3. range_to_prop; solve_code_point.
Qed.

(** An ASCII prefix is found in the decoded buffer when it is found in the
    bytes. *)
Lemma prefixb_decode prefix :
  forallb (in_range 0 127) prefix = true ->
  forall data s,
    utf8_decode data = Some s ->
    prefixb N.eqb s (map Byte.to_N prefix) = prefixb Byte.eqb data prefix.
Proof.
  induction prefix as [|p prefix IH]; intros Hascii data s Hdec.
  - destruct s, data; reflexivity.
  - cbn [forallb] in Hascii. apply andb_prop in Hascii.
    destruct Hascii as [Hp Hprefix].
    destruct data as [|x r].
    + inversion Hdec. reflexivity.
    + destruct (utf8_decode_cons x r s Hdec) as (cp & s' & -> & Hcp).
      cbn [map prefixb]. rewrite byte_eqb_to_N.
      destruct (in_range 0 127 x) eqn:Hx.
      * destruct Hcp as [-> Hr]. now rewrite (IH Hprefix r s' Hr).
      * assert (Hne1 : N.eqb (Byte.to_N p) cp = false).
        { apply N.eqb_neq. unfold in_range in Hp. bool_to_prop. lia. }
        assert (Hne2 : N.eqb (Byte.to_N p) (Byte.to_N x) = false).
        { apply N.eqb_neq. intros Heq. unfold in_range in Hp, Hx.
          rewrite <- Heq, Hp in Hx. discriminate. }
        now rewrite Hne1, Hne2.
Qed.

Lemma scp_tests_agree_lemma command decoded :
  utf8_decode command = Some decoded ->
  str_startswith decoded (u "scp") = startswith command (b "scp").
Proof.
  intros Hdec. apply (prefixb_decode (b "scp") eq_refl command decoded Hdec).
Qed.

(** X16. The two tests for an scp command agree: for a command that
    decodes as UTF-8, the test of [forward] on the decoded command and the
    test of [handle_traffic] on its bytes give the same answer. *)
Theorem scp_tests_agree :
  forall command decoded,
    utf8_decode command = Some decoded ->
    str_startswith decoded (u "scp") = startswith command (b "scp").
Proof. exact scp_tests_agree_lemma. Qed.

Lemma scp_tests_agree_witness :
  str_startswith (u "scp -t /tmp") (u "scp")
  = startswith (b "scp -t /tmp") (b "scp").
Proof.
  apply (scp_tests_agree (b "scp -t /tmp") (u "scp -t /tmp")). reflexivity.
Defined.

(** ** [SCPBaseForwarder.forward], before the loop *)

Lemma startswith_prefix data sub :
  startswith data sub = true <-> exists post, data = sub ++ post.
Proof.
  unfold startswith. revert data.
  induction sub as [|p sub IH]; intros data.
  - split; [intros _; now exists data|destruct data; reflexivity].
  - destruct data as [|d data]; cbn [prefixb].
    + split; [discriminate|intros (post & Heq); discriminate].
    + rewrite andb_true_iff, IH. split.
      * intros (Hpd & post & ->). apply Byte.byte_dec_bl in Hpd. subst d.
        now exists post.
      * intros (post & Heq). inversion Heq; subst.
        split; [now apply Byte.byte_dec_lb|now exists post].
Qed.

Lemma occurs_cons sub x data :
  startswith (x :: data) sub = false ->
  (occurs sub (x :: data) <-> occurs sub data).
Proof.
  intros Hstart. split.
  - intros (pre & post & Heq). destruct pre as [|y pre].
    + assert (Htrue : startswith (x :: data) sub = true)
        by (apply startswith_prefix; now exists post).
      congruence.
    + inversion Heq; subst. now exists pre, post.
  - intros (pre & post & ->). now exists (x :: pre), post.
Qed.

(** [find] returns -1 exactly when there is no occurrence. *)
Lemma find_from_none sub data :
  forall i, 0 <= i -> (find_from i data sub = -1 <-> ~ occurs sub data).
Proof.
  induction data as [|x data IH]; intros i Hi; cbn [find_from];
    destruct (startswith _ sub) eqn:Hstart.
  - split; [lia|]. intros Hno. exfalso. apply Hno.
    apply startswith_prefix in Hstart. destruct Hstart as (post & Heq).
    now exists [], post.
  - split; [|reflexivity]. intros _ (pre & post & Heq).
    destruct pre; [|discriminate]. cbn in Heq.
    assert (Htrue : startswith [] sub = true)
      by (apply startswith_prefix; now exists post).
    congruence.
  - split; [lia|]. intros Hno. exfalso. apply Hno.
    apply startswith_prefix in Hstart. destruct Hstart as (post & Heq).
    now exists [], post.
  - rewrite (IH (i + 1)) by lia. now rewrite (occurs_cons _ _ _ Hstart).
Qed.

Lemma find_none data sub : (find data sub =? -1) = true <-> ~ occurs sub data.
Proof.
  unfold find. rewrite Z.eqb_eq. now apply find_from_none.
Qed.

(** X17. What [forward] does before its loop. A command that is not valid
    UTF-8 is never executed: [forward] raises [UnicodeDecodeError] after
    the request of a terminal, if there is one. Otherwise the command is
    executed on the server-side channel, and the loop starts at once,
    unless the bytes of the command begin with scp and hold neither " -t "
    nor " -f ": then the loop starts only when the wait for the
    server-side channel to close has ended. *)
Theorem forward_before_the_loop :
  forall (W chan H : Type) (api : Paramiko W chan) (hooks : Hooks H)
         (session : Session chan) (server_channel : chan) (BUF_LEN : N)
         (fuel : nat) (w : World W chan H),
    let command := scp_command session in
    let w1 :=
      match ssh_pty_kwargs session with
      | Some _ => mkWorld (get_pty api server_channel (env w)) (self w)
                          (trace w ++ [EvGetPty server_channel])
      | None => w
      end in
    let executed decoded :=
      mkWorld (exec_command api server_channel decoded (env w1)) (self w1)
              (trace w1 ++ [EvExecCommand server_channel decoded]) in
    (utf8_decode command = None ->
     forward api hooks session server_channel BUF_LEN fuel w
     = Some (Raise UnicodeDecodeError, w1))
    /\ (forall decoded,
           utf8_decode command = Some decoded ->
           (startswith command (b "scp") = true ->
            ~ occurs (b " -t ") command ->
            ~ occurs (b " -f ") command ->
            forward api hooks session server_channel BUF_LEN fuel w
            = (wait_closed api server_channel fuel;;
               forward_loop api hooks session server_channel BUF_LEN fuel)
                (executed decoded))
           /\ (startswith command (b "scp") = false
               \/ occurs (b " -t ") command
               \/ occurs (b " -f ") command ->
               forward api hooks session server_channel BUF_LEN fuel w
               = forward_loop api hooks session server_channel BUF_LEN fuel
                   (executed decoded))).
Proof.
  intros W chan H api hooks session server_channel BUF_LEN fuel w command w1
         executed.
  assert (Hpty : forall (k : unit -> run W chan H unit),
             bind (when (match ssh_pty_kwargs session with
                         | Some _ => true
                         | None => false
                         end)
                        (act (get_pty api server_channel)
                             (EvGetPty server_channel))) k w
             = k tt w1).
  { intros k. subst w1. destruct (ssh_pty_kwargs session); reflexivity. }
  split.
  - intros Hdec. unfold forward. rewrite Hpty. unfold decode.
    fold command. rewrite Hdec. reflexivity.
  - intros decoded Hdec.
    assert (Hforward :
      forward api hooks session server_channel BUF_LEN fuel w
      = (when (str_startswith decoded (u "scp"))
           (when (negb (negb (find command (b " -t ") =? -1))
                  && negb (negb (find command (b " -f ") =? -1)))
              (wait_closed api server_channel fuel));;
         forward_loop api hooks session server_channel BUF_LEN fuel)
          (executed decoded)).
    { unfold forward. rewrite Hpty. unfold decode. fold command.
      rewrite Hdec. reflexivity. }
    rewrite Hforward, (scp_tests_agree_lemma command decoded Hdec).
    rewrite !negb_involutive. split.
    + intros Hscp Ht Hf. rewrite Hscp.
      apply find_none in Ht, Hf. rewrite Ht, Hf. reflexivity.
    + intros [Hscp|[Ht|Hf]].
      * rewrite Hscp. reflexivity.
      * destruct (startswith command (b "scp")); [|reflexivity].
        destruct (find command (b " -t ") =? -1) eqn:Hfind; [|reflexivity].
        apply find_none in Hfind. contradiction.
      * destruct (startswith command (b "scp")); [|reflexivity].
        destruct (find command (b " -f ") =? -1) eqn:Hfind;
          [|now rewrite andb_false_r].
        apply find_none in Hfind. contradiction.
Qed.

Lemma forward_before_the_loop_witness :
  let session := sim_session (b "scp host1:/a host2:/b") in
  let hooks := SCPForwarder_hooks (b "scp host1:/a host2:/b") in
  forward sim_api hooks session Server 1024 3 (mkWorld (sim_start 4) init [])
  = (wait_closed sim_api Server 3;;
     forward_loop sim_api hooks session Server 1024 3)
      (mkWorld (sim_start 4) init
         [EvExecCommand Server (u "scp host1:/a host2:/b")]).
Proof.
  intros session hooks.
  destruct (forward_before_the_loop Sim side SCPForwarder sim_api hooks
              session Server 1024 3 (mkWorld (sim_start 4) init []))
    as [_ Hdecoded].
  destruct (Hdecoded (u "scp host1:/a host2:/b") eq_refl) as [Hwait _].
  apply Hwait.
  - reflexivity.
  - apply find_none. reflexivity.
  - apply find_none. reflexivity.
Defined.

(** X18. With a session that is running and has no client-side channel,
    [forward] on a command for the loop (not a remote to remote copy)
    raises [ValueError], but only once the command has been executed on
    the server-side channel; no other call is made. *)
Theorem forward_without_client_channel :
  forall (W chan H : Type) (api : Paramiko W chan) (hooks : Hooks H)
         (session : Session chan) (server_channel : chan) (BUF_LEN : N)
         (fuel : nat) (w : World W chan H) (decoded : str),
    ssh_pty_kwargs session = None ->
    scp_channel session = None ->
    utf8_decode (scp_command session) = Some decoded ->
    startswith (scp_command session) (b "scp") = false
    \/ occurs (b " -t ") (scp_command session)
    \/ occurs (b " -f ") (scp_command session) ->
    running api (exec_command api server_channel decoded (env w)) = true ->
    forward api hooks session server_channel BUF_LEN (S fuel) w
    = Some (Raise (ValueError "No SCP Channel available!"),
            mkWorld (exec_command api server_channel decoded (env w)) (self w)
                    (trace w ++ [EvExecCommand server_channel decoded])).
Proof.
  intros W chan H api hooks session server_channel BUF_LEN fuel w decoded
         Hpty Hclient Hdec Hloop Hrun.
  unfold forward. rewrite Hpty. unfold when at 1. unfold bind at 1, ret at 1.
  unfold decode. rewrite Hdec. unfold bind at 1, ret at 1.
  rewrite bind_act. unfold bind at 1, ret at 1.
  rewrite (scp_tests_agree_lemma _ _ Hdec), !negb_involutive.
  assert (Hwhen :
    (startswith (scp_command session) (b "scp")
     && ((find (scp_command session) (b " -t ") =? -1)
         && (find (scp_command session) (b " -f ") =? -1))) = false).
  { destruct Hloop as [Hscp|[Ht|Hf]].
    - now rewrite Hscp.
    - destruct (find (scp_command session) (b " -t ") =? -1) eqn:Hfind;
        [|now rewrite andb_false_r].
      apply find_none in Hfind. contradiction.
    - destruct (find (scp_command session) (b " -f ") =? -1) eqn:Hfind;
        [|now rewrite !andb_false_r].
      apply find_none in Hfind. contradiction. }
  assert (Hskip : forall (k : unit -> run W chan H unit) w0,
    bind (when (startswith (scp_command session) (b "scp"))
            (when ((find (scp_command session) (b " -t ") =? -1)
                   && (find (scp_command session) (b " -f ") =? -1))
               (wait_closed api server_channel (S fuel)))) k w0
    = k tt w0).
  { intros k w0.
    destruct (startswith (scp_command session) (b "scp")); [|reflexivity].
    cbn [andb] in Hwhen. rewrite Hwhen. reflexivity. }
  rewrite Hskip. cbn [forward_loop]. unfold bind at 1, attr at 1.
  cbn [env self trace]. rewrite Hrun. cbn [negb]. rewrite Hclient.
  reflexivity.
Qed.

Lemma forward_without_client_channel_witness :
  forward sim_api (SCPForwarder_hooks (b "scp -t /tmp"))
    {| ssh_pty_kwargs := None;
       scp_command := b "scp -t /tmp";
       scp_channel := None;
       agent := None |}
    Server 1024 1 (mkWorld (sim_start 4) init [])
  = Some (Raise (ValueError "No SCP Channel available!"),
          mkWorld (sim_start 4) init
                  ([] ++ [EvExecCommand Server (u "scp -t /tmp")])).
Proof.
  apply (forward_without_client_channel Sim side SCPForwarder sim_api
           (SCPForwarder_hooks (b "scp -t /tmp"))
           {| ssh_pty_kwargs := None;
              scp_command := b "scp -t /tmp";
              scp_channel := None;
              agent := None |}
           Server 1024 0 (mkWorld (sim_start 4) init []) (u "scp -t /tmp")).
  - reflexivity.
  - reflexivity.
  - reflexivity.
  - right. left. exists (b "scp"), (b "/tmp"). reflexivity.
  - reflexivity.
Defined.

(** X19. In an iteration of the loop in which, after the four relay steps,
    neither channel reports an exit status: when the client-side channel
    is found closed, [close] is called on the server-side channel and then
    [close_session] on the client-side channel, and the loop ends; when
    only the server-side channel is found closed, [close_session] is
    called on the client-side channel and the loop ends with no call on
    the server-side channel; when neither is, the loop sleeps and goes
    round again. *)
Theorem forward_loop_closed_channels :
  forall (W chan H : Type) (api : Paramiko W chan) (hooks : Hooks H)
         (session : Session chan) (server_channel client : chan)
         (BUF_LEN : N) (fuel : nat) (w0 w1 : World W chan H),
    running api (env w0) = true ->
    scp_channel session = Some client ->
    relay_all api hooks server_channel BUF_LEN fuel client w0
    = Some (Return tt, w1) ->
    let server_ready := exit_status_ready api server_channel (env w1) in
    let client_ready := exit_status_ready api client (snd server_ready) in
    let client_closed := base_closed api client (snd client_ready) in
    let server_closed := base_closed api server_channel (snd client_closed) in
    fst server_ready = false ->
    fst client_ready = false ->
    (fst client_closed = true ->
     forward_loop api hooks session server_channel BUF_LEN (S fuel) w0
     = close_session api client
         (mkWorld (close api server_channel (snd client_closed)) (self w1)
                  (trace w1 ++ [EvClose server_channel])))
    /\ (fst client_closed = false ->
        fst server_closed = true ->
        forward_loop api hooks session server_channel BUF_LEN (S fuel) w0
        = close_session api client
            (mkWorld (snd server_closed) (self w1) (trace w1)))
    /\ (fst client_closed = false ->
        fst server_closed = false ->
        forward_loop api hooks session server_channel BUF_LEN (S fuel) w0
        = forward_loop api hooks session server_channel BUF_LEN fuel
            (mkWorld (sleep api (snd server_closed)) (self w1)
                     (trace w1 ++ [EvSleep]))).
Proof.
  intros W chan H api hooks session server_channel client BUF_LEN fuel w0 w1
         Hrun Hclient Hrelay server_ready client_ready client_closed
         server_closed Hserver Hcl.
  subst server_closed client_closed client_ready server_ready.
  assert (Hloop :
    forward_loop api hooks session server_channel BUF_LEN (S fuel) w0
    = (client_closed <- query (base_closed api client);;
       if client_closed then
         act (close api server_channel) (EvClose server_channel);;
         close_session api client
       else
         server_closed <- query (base_closed api server_channel);;
         if server_closed then close_session api client
         else
           act (sleep api) EvSleep;;
           forward_loop api hooks session server_channel BUF_LEN fuel)
        (mkWorld
           (snd (exit_status_ready api client
                   (snd (exit_status_ready api server_channel (env w1)))))
           (self w1) (trace w1))).
  { cbn [forward_loop]. unfold bind at 1, attr at 1. rewrite Hrun.
    cbn [negb]. rewrite Hclient. unfold bind at 1. rewrite Hrelay.
    rewrite bind_query, Hserver, bind_query. cbn [env self trace].
    now rewrite Hcl. }
  rewrite Hloop, bind_query. cbn [env self trace].
  split; [|split].
  - intros Hclosed. rewrite Hclosed, bind_act. reflexivity.
  - intros Hopen Hclosed. rewrite Hopen, bind_query. cbn [env self trace].
    rewrite Hclosed. reflexivity.
  - intros Hopen Hopen'. rewrite Hopen, bind_query. cbn [env self trace].
    rewrite Hopen', bind_act. reflexivity.
Qed.

Lemma forward_loop_closed_channels_witness :
  let command := b "scp -t /tmp" in
  let start :=
    mkWorld
      (mkSim (sim_idle 4) (mkSimChannel true false None [] [] 4) true
             [Client; Server])
      init (@nil (event side)) in
  forward_loop sim_api (SCPForwarder_hooks command) (sim_session command)
    Server 1024 1 start
  = Some (Return tt,
          mkWorld
            (mkSim (mkSimChannel true false None [] [] 4)
                   (mkSimChannel true false None [] [] 4) true [Server])
            init
            [EvSendUserMessage Client [add_byte 96%N; add_int 7%N];
             EvSendUserMessage Client
               [add_byte 98%N; add_int 7%N; add_string "eow@openssh.com";
                add_boolean false];
             EvSendUserMessage Client [add_byte 97%N; add_int 7%N];
             EvUnlink Client;
             EvBaseCloseSession Client]).
Proof.
  intros command start.
  destruct (forward_loop_closed_channels Sim side SCPForwarder sim_api
              (SCPForwarder_hooks command) (sim_session command)
              Server Client 1024 0 start start
              eq_refl eq_refl eq_refl eq_refl eq_refl) as (_ & Hserver & _).
  exact (Hserver eq_refl eq_refl).
Defined.

(** X20. A chunk that holds no newline is never taken for a control line:
    [handle_command] returns it and only clears [got_c_command]. A control
    line that arrives cut in two chunks is so not parsed, in either
    chunk. *)
Theorem handle_command_needs_newline :
  forall traffic command self,
    utf8_decode traffic = Some command ->
    ~ In chr_newline command ->
    handle_command traffic self
    = (Return traffic, set_got_c_command false self).
Proof.
  intros traffic command self Hdec Hnone. unfold handle_command.
  rewrite Hdec.
  destruct (re_match_c_command command) as [[[[g1 g2] g3] g4]|] eqn:Hm;
    [|reflexivity].
  exfalso. apply Hnone.
  apply re_match_c_command_sound in Hm.
  destruct Hm as (c & w1 & w2 & rest & -> & _).
  apply in_or_app; right. apply in_or_app; right. right.
  apply in_or_app; right. right. apply in_or_app; right. now left.
Qed.

Lemma handle_command_needs_newline_witness :
  handle_command (b "C0644 13 te") init = (Return (b "C0644 13 te"), init).
Proof.
  apply (handle_command_needs_newline (b "C0644 13 te") (u "C0644 13 te") init).
  - reflexivity.
  - intros Hin. cbv in Hin.
    repeat (destruct Hin as [Hin|Hin]; [discriminate|]). exact Hin.
Defined.
